(** * insert_test5.py: extraction, re-emission and splicing of quiz records

    A shallow embedding of the script [insert_test5.py]: it reads
    [add_questions.py], extracts the body of the [test5_questions] array,
    splits it into record fragments, evaluates each fragment, re-emits every
    record as a one-line JavaScript object literal and inserts the joined block
    at line index 773 of [awsprepai-multicert.html].

    Python [str] values are modelled as [string]; every [ascii] stands for the
    code point of the same number (the Latin-1 range).  File contents are the
    text that Python's text layer hands to the script and takes from it: the
    encoding and the translation of line endings are below this model. *)

From Stdlib Require Import ZArith String Ascii List Bool Arith Lia.
From Stdlib Require Import DecimalString DecimalPos DecimalZ.
Import ListNotations.
Local Open Scope string_scope.

(** ** Python [str] operations used by the script *)

Module Text.

Definition LF : ascii := ascii_of_nat 10.
Definition quote : ascii := ascii_of_nat 34.
Definition backslash : ascii := ascii_of_nat 92.
Definition lbrace : ascii := "{"%char.
Definition rbrace : ascii := "}"%char.

(** [str.isspace] on one character, which is also the class [\s] of [re]
    for [str] patterns: TAB..CR, FS..US, SPACE, NEL and NBSP. *)
Definition is_space (c : ascii) : bool :=
  let n := nat_of_ascii c in
  ((9 <=? n)%nat && (n <=? 13)%nat) || ((28 <=? n)%nat && (n <=? 32)%nat)
  || (n =? 133)%nat || (n =? 160)%nat.

Definition is_empty (s : string) : bool :=
  match s with EmptyString => true | String _ _ => false end.

(** [s.lstrip()] *)
Fixpoint lstrip (s : string) : string :=
  match s with
  | EmptyString => EmptyString
  | String c s' => if is_space c then lstrip s' else s
  end.

(** [s.rstrip()] *)
Fixpoint rstrip (s : string) : string :=
  match s with
  | EmptyString => EmptyString
  | String c s' =>
      let r := rstrip s' in
      if is_space c && is_empty r then EmptyString else String c r
  end.

(** [s.strip()] *)
Definition strip (s : string) : string := lstrip (rstrip s).

(** [s.startswith(p)] *)
Definition startswith (p s : string) : bool := prefix p s.

(** [s.endswith(p)] *)
Fixpoint endswith (p s : string) : bool :=
  String.eqb s p
  || match s with
     | EmptyString => false
     | String _ s' => endswith p s'
     end.

(** [s.replace(old, new)] for a one-character [old]. *)
Fixpoint replace (old : ascii) (new : string) (s : string) : string :=
  match s with
  | EmptyString => EmptyString
  | String c s' =>
      if Ascii.eqb c old then new ++ replace old new s'
      else String c (replace old new s')
  end.

(** [sep.join(parts)] *)
Definition join (sep : string) (parts : list string) : string :=
  String.concat sep parts.

(** [s[:n]] *)
Definition slice_to (n : nat) (s : string) : string := substring 0 n s.

(** [c in s] for a character. *)
Fixpoint mem (c : ascii) (s : string) : bool :=
  match s with
  | EmptyString => false
  | String a s' => Ascii.eqb a c || mem c s'
  end.

(** [s[n:]] *)
Fixpoint drop (n : nat) (s : string) : string :=
  match n, s with
  | S n', String _ s' => drop n' s'
  | _, _ => s
  end.

(** The first occurrence of [pat] in [s]: the text before it and the text
    after it. *)
Fixpoint find (pat s : string) : option (string * string) :=
  if prefix pat s then Some (EmptyString, drop (String.length pat) s)
  else match s with
       | EmptyString => None
       | String c s' =>
           match find pat s' with
           | Some (before, after) => Some (String c before, after)
           | None => None
           end
       end.

(** [all(p(c) for c in s)] *)
Fixpoint all (p : ascii -> bool) (s : string) : bool :=
  match s with
  | EmptyString => true
  | String c s' => p c && all p s'
  end.

Definition is_digit (c : ascii) : bool :=
  let n := nat_of_ascii c in (48 <=? n)%nat && (n <=? 57)%nat.

(** The characters of a decimal numeral: digits and the minus sign. *)
Definition numeral_char (c : ascii) : bool := is_digit c || Ascii.eqb c "-".

End Text.

(** ** Fragment repair (lines 29-33) *)

Definition repair (q_str : string) : string :=
  let q_str := Text.strip q_str in
  let q_str := if negb (Text.startswith "{" q_str) then "{" ++ q_str else q_str in
  let q_str := if negb (Text.endswith "}" q_str) then q_str ++ "}" else q_str in
  q_str.

(** ** Extractor (lines 14-19)

    [re.search(r'test5_questions = \[(.*?)\n\]', content, re.DOTALL)]: the
    pattern is a literal, a lazy wildcard that also crosses newlines, and a
    literal.  The leftmost match starts at the first occurrence of the opening
    literal and its group ends at the first occurrence of the closing literal
    after it. *)

Definition array_open : string := "test5_questions = [".
Definition array_close : string := String Text.LF "]".

(** [match.group(1)], or [None] when [re.search] finds nothing. *)
Definition extract (content : string) : option string :=
  match Text.find array_open content with
  | None => None
  | Some (_, rest) =>
      match Text.find array_close rest with
      | None => None
      | Some (body, _) => Some body
      end
  end.

(** ** Splitting into fragments (line 25)

    The separator [r'\},\s*\n\s*\{'] matched at the head of a text: a closing
    brace, a comma, a run of white space holding at least one line feed, and an
    opening brace.  As the opening brace is no white space, the run is the
    whole run of white space after the comma. *)

Fixpoint boundary_tail (seen_nl : bool) (s : string) : option string :=
  match s with
  | EmptyString => None
  | String c s' =>
      if Text.is_space c then boundary_tail (seen_nl || Ascii.eqb c Text.LF) s'
      else if Ascii.eqb c Text.lbrace && seen_nl then Some s'
      else None
  end.

(** The text after the separator when [s] starts with one. *)
Definition match_boundary (s : string) : option string :=
  match s with
  | String c1 (String c2 s') =>
      if Ascii.eqb c1 Text.rbrace && Ascii.eqb c2 ","%char
      then boundary_tail false s' else None
  | _ => None
  end.

(** [re.split]: scan from the left, cut at every separator, resume after it.
    Every step consumes a character, so the length of the text (plus one) is
    enough fuel; [piece] is the text since the last cut. *)
Fixpoint split_from (fuel : nat) (piece s : string) : list string :=
  match fuel with
  | O => [piece ++ s]
  | S fuel' =>
      match match_boundary s with
      | Some rest => piece :: split_from fuel' EmptyString rest
      | None =>
          match s with
          | EmptyString => [piece]
          | String c s' => split_from fuel' (piece ++ String c EmptyString) s'
          end
      end
  end.

Definition re_split (s : string) : list string :=
  split_from (S (String.length s)) EmptyString s.

(** Does the separator occur somewhere in [s]? *)
Fixpoint has_boundary (s : string) : bool :=
  match match_boundary s with
  | Some _ => true
  | None =>
      match s with
      | EmptyString => false
      | String _ s' => has_boundary s'
      end
  end.

(** ** Python values

    The values a record's fields hold ([None], booleans, integers, strings and
    lists of these), and what a fragment evaluates to: a dictionary with string
    keys, in the order of its entries, or a bare value. *)

Unset Elimination Schemes.
Inductive pyval : Type :=
| PNone
| PBool (b : bool)
| PInt (z : Z)
| PStr (s : string)
| PList (items : list pyval).
Set Elimination Schemes.

Inductive pyobj : Type :=
| PDict (entries : list (string * pyval))
| PVal (v : pyval).

Inductive exn : Type :=
| KeyError (key : string)
| TypeError
| AttributeError.

(** [str(n)] for an integer. *)
Definition str_int (z : Z) : string := NilZero.string_of_int (Z.to_int z).

(** [d[key]] *)
Fixpoint lookup (key : string) (entries : list (string * pyval)) : option pyval :=
  match entries with
  | [] => None
  | (k, v) :: rest => if String.eqb k key then Some v else lookup key rest
  end.

Definition subscript (q : pyobj) (key : string) : exn + pyval :=
  match q with
  | PDict entries =>
      match lookup key entries with
      | Some v => inr v
      | None => inl (KeyError key)
      end
  | PVal _ => inl TypeError
  end.

(** ** [json.dumps] with its defaults ([ensure_ascii], separators [", "]) *)

Module Json.

Definition hex_digit (n : nat) : ascii :=
  match String.get n "0123456789abcdef" with
  | Some c => c
  | None => "0"%char
  end.

Definition bs (c : ascii) : string :=
  String Text.backslash (String c EmptyString).

(** The replacement of one character in [encode_basestring_ascii]: the
    short escapes, the printable ASCII characters as they are, and
    [\u00XX] for the rest. *)
Definition escape_char (c : ascii) : string :=
  let n := nat_of_ascii c in
  if Ascii.eqb c Text.quote then bs Text.quote
  else if Ascii.eqb c Text.backslash then bs Text.backslash
  else if (n =? 10)%nat then bs "n"%char
  else if (n =? 13)%nat then bs "r"%char
  else if (n =? 9)%nat then bs "t"%char
  else if (n =? 8)%nat then bs "b"%char
  else if (n =? 12)%nat then bs "f"%char
  else if (32 <=? n)%nat && (n <=? 126)%nat then String c EmptyString
  else bs "u"%char ++ "00"
       ++ String (hex_digit (n / 16)) (String (hex_digit (n mod 16)) EmptyString).

Fixpoint escape (s : string) : string :=
  match s with
  | EmptyString => EmptyString
  | String c s' => escape_char c ++ escape s'
  end.

Definition encode_string (s : string) : string :=
  String Text.quote (escape s ++ String Text.quote EmptyString).

Fixpoint dumps (v : pyval) : string :=
  match v with
  | PNone => "null"
  | PBool true => "true"
  | PBool false => "false"
  | PInt z => str_int z
  | PStr s => encode_string s
  | PList items => "[" ++ Text.join ", " (map dumps items) ++ "]"
  end.

End Json.

(** ** Re-emission of one record (lines 48-58) *)

(** Line 49: [json.dumps(a) if isinstance(a, list) else str(a)]. *)
Definition answer_str (answer : pyval) : string :=
  match answer with
  | PList _ => Json.dumps answer
  | PNone => "None"
  | PBool true => "True"
  | PBool false => "False"
  | PInt z => str_int z
  | PStr s => s
  end.

(** [s.replace('"', '\\"')] *)
Definition esc (s : string) : string :=
  Text.replace Text.quote (Json.bs Text.quote) s.

(** [v.replace('"', '\\"')]: only a [str] has the method. *)
Definition escape_quotes (v : pyval) : exn + string :=
  match v with
  | PStr s => inr (esc s)
  | _ => inl AttributeError
  end.

Definition dq : string := String Text.quote EmptyString.

(** The f-string of line 58. *)
Definition js_template (cat question_text options answer_str explain_text : string) : string :=
  "      { cat: " ++ dq ++ cat ++ dq ++ ", q: " ++ dq ++ question_text ++ dq
  ++ ", options: " ++ options ++ ", answer: " ++ answer_str
  ++ ", explain: " ++ dq ++ explain_text ++ dq ++ " }".

Definition bind_exn {A B : Type} (x : exn + A) (f : A -> exn + B) : exn + B :=
  match x with
  | inl e => inl e
  | inr a => f a
  end.

Notation "x <-! e ; k" := (bind_exn e (fun x => k))
  (at level 61, e at next level, right associativity).

(** The body of the loop over [questions]; an [inl] is the exception that
    ends the script. *)
Definition js_q (q : pyobj) : exn + string :=
  answer <-! subscript q "answer";
  let answer_str := answer_str answer in
  cat_v <-! subscript q "cat";
  cat <-! escape_quotes cat_v;
  q_v <-! subscript q "q";
  question_text <-! escape_quotes q_v;
  explain_v <-! subscript q "explain";
  explain_text <-! escape_quotes explain_v;
  options_v <-! subscript q "options";
  let options := Json.dumps options_v in
  inr (js_template cat question_text options answer_str explain_text).

Fixpoint js_questions (questions : list pyobj) : exn + list string :=
  match questions with
  | [] => inr []
  | q :: rest =>
      line <-! js_q q;
      lines <-! js_questions rest;
      inr (line :: lines)
  end.

(** ** Lines of a text file *)

(** [f.readlines()]: every line keeps its line feed; a last line without one
    is a line too. *)
Fixpoint readlines (s : string) : list string :=
  match s with
  | EmptyString => []
  | String c s' =>
      if Ascii.eqb c Text.LF then String c EmptyString :: readlines s'
      else match readlines s' with
           | [] => [String c EmptyString]
           | l :: ls => String c l :: ls
           end
  end.

(** What [f.writelines(lines)] leaves in a file opened with ['w']. *)
Definition writelines (lines : list string) : string := String.concat EmptyString lines.

(** [l.insert(i, x)] for [i >= 0]: past the end it appends. *)
Definition list_insert {A : Type} (i : nat) (x : A) (l : list A) : list A :=
  firstn i l ++ x :: skipn i l.

Definition insert_line : nat := 773.

(** Line 69. *)
Definition new_questions_text (js : list string) : string :=
  Text.join ("," ++ String Text.LF EmptyString) js ++ "," ++ String Text.LF EmptyString.

(** Lines 61-74 as a function of the old text of the destination. *)
Definition splice (js : list string) (html : string) : string :=
  let html_lines := readlines html in
  let html_lines := list_insert insert_line (new_questions_text js) html_lines in
  writelines html_lines.

(** ** The script as a whole

    The two files exist and can be opened; the state is their text and the
    sequence of what the run did to the outside: files opened and lines
    printed. *)

Inductive path : Type :=
| add_questions_py          (* 'add_questions.py' *)
| awsprepai_multicert_html. (* 'awsprepai-multicert.html' *)

Record files : Type := mk_files { source_text : string; dest_text : string }.

Inductive event : Type :=
| OpenRead (p : path)
| OpenWrite (p : path)
| Print (line : string).

Record world : Type := mk_world { disk : files; trace : list event }.

(** How a run ends: it falls off the end of the script, [exit(code)] is
    called, or an exception is not caught. *)
Inductive ending : Type :=
| Completed
| SysExit (code : Z)
| Uncaught (e : exn).

Definition exit_status (e : ending) : Z :=
  match e with
  | Completed => 0
  | SysExit code => code
  | Uncaught _ => 1
  end.

Module IO.

Inductive res (A : Type) : Type :=
| Ok (a : A)
| Stop (e : ending).
Arguments Ok {A} a.
Arguments Stop {A} e.

Definition M (A : Type) : Type := world -> res A * world.

Definition ret {A : Type} (a : A) : M A := fun w => (Ok a, w).

Definition bind {A B : Type} (m : M A) (k : A -> M B) : M B :=
  fun w =>
    match m w with
    | (Ok a, w') => k a w'
    | (Stop e, w') => (Stop e, w')
    end.

Definition emit (ev : event) : M unit :=
  fun w => (Ok tt, mk_world (disk w) (trace w ++ [ev])).

Definition print (line : string) : M unit := emit (Print line).

Definition exit {A : Type} (code : Z) : M A := fun w => (Stop (SysExit code), w).

Definition raise {A : Type} (e : exn) : M A := fun w => (Stop (Uncaught e), w).

Definition lift {A : Type} (x : exn + A) : M A :=
  match x with
  | inl e => raise e
  | inr a => ret a
  end.

Definition file (p : path) (d : files) : string :=
  match p with
  | add_questions_py => source_text d
  | awsprepai_multicert_html => dest_text d
  end.

Definition store (p : path) (text : string) (d : files) : files :=
  match p with
  | add_questions_py => mk_files text (dest_text d)
  | awsprepai_multicert_html => mk_files (source_text d) text
  end.

(** [with open(p, 'r') as f: f.read()] *)
Definition read_file (p : path) : M string :=
  fun w => (Ok (file p (disk w)), mk_world (disk w) (trace w ++ [OpenRead p])).

(** [with open(p, 'w') as f: f.writelines(...)] *)
Definition write_file (p : path) (text : string) : M unit :=
  fun w => (Ok tt, mk_world (store p text (disk w)) (trace w ++ [OpenWrite p])).

End IO.

Notation "x <- e ;; k" := (IO.bind e (fun x => k))
  (at level 61, e at next level, right associativity).
Notation "e ;; k" := (IO.bind e (fun _ => k))
  (at level 61, right associativity).

Definition str_nat (n : nat) : string := str_int (Z.of_nat n).

Section Script.

(** [eval]: the text of a fragment gives a value, or raises an [Exception]
    whose message is the [inl].  The fragments are literals: their value
    does not depend on the variables of the script, and evaluating them touches
    neither the files nor the output. *)
Variable py_eval : string -> string + pyobj.

(** Lines 27-42, from fragment number [i] (0-based) on. *)
Fixpoint parse_loop (i : nat) (question_strings : list string)
         (questions : list pyobj) : IO.M (list pyobj) :=
  match question_strings with
  | [] => IO.ret questions
  | q_str :: rest =>
      let q_str := repair q_str in
      match py_eval q_str with
      | inr q_dict => parse_loop (S i) rest (questions ++ [q_dict])
      | inl e =>
          IO.print ("Error parsing question " ++ str_nat (i + 1) ++ ": " ++ e) ;;
          IO.print ("String: " ++ Text.slice_to 200 q_str) ;;
          parse_loop (S i) rest questions
      end
  end.

Definition main : IO.M unit :=
  content <- IO.read_file add_questions_py ;;
  match extract content with
  | None =>
      IO.print "Could not find test5_questions array" ;;
      IO.exit 1
  | Some array_content =>
      let question_strings := re_split (Text.strip array_content) in
      questions <- parse_loop 0 question_strings [] ;;
      IO.print ("Parsed " ++ str_nat (List.length questions) ++ " questions from Test #5") ;;
      js <- IO.lift (js_questions questions) ;;
      html <- IO.read_file awsprepai_multicert_html ;;
      IO.write_file awsprepai_multicert_html (splice js html) ;;
      IO.print ("Successfully added " ++ str_nat (List.length questions)
                ++ " questions from Test #5 to awsprepai-multicert.html") ;;
      IO.print ("New total SAA questions: " ++ str_nat (422 + List.length questions))
  end.

(** A run from the given files: how it ends and the world it leaves. *)
Definition run (d : files) : ending * world :=
  match main (mk_world d []) with
  | (IO.Ok _, w) => (Completed, w)
  | (IO.Stop e, w) => (e, w)
  end.

(** The pure core of lines 27-42: the records in order, without the
    printing. *)
Definition parsed (question_strings : list string) : list pyobj :=
  flat_map (fun q_str =>
              match py_eval (repair q_str) with
              | inr q_dict => [q_dict]
              | inl _ => []
              end) question_strings.

End Script.

(** ** Vocabulary of the properties *)

(** A complete line: no line feed but the one that ends it. *)
Definition is_line (l : string) : Prop :=
  exists b, l = b ++ String Text.LF "" /\ Text.mem Text.LF b = false.

(** A text that a block can be put behind without joining two lines: it is
    empty or ends in a line feed. *)
Definition terminated (s : string) : bool :=
  Text.is_empty s || Text.endswith (String Text.LF "") s.

(** The lines the inserted block makes in the file: every re-emitted record
    with its comma and line feed. *)
Definition block_lines (js : list string) : list string :=
  map (fun j => j ++ "," ++ String Text.LF "") js.

(** Does a field that is written as it is hold a line feed?  These are the
    strings among [cat], [q], [explain] and [answer]; [options] goes through
    [json.dumps]. *)
Definition text_has_newline (v : pyval) : bool :=
  match v with
  | PStr s => Text.mem Text.LF s
  | _ => false
  end.

Definition embedded_newline (q : pyobj) : bool :=
  match q with
  | PDict entries =>
      existsb (fun key => match lookup key entries with
                          | Some v => text_has_newline v
                          | None => false
                          end)
              ["cat"; "q"; "explain"; "answer"]
  | PVal _ => false
  end.

(** What [parse_loop] prints: two lines for every fragment that does not
    evaluate, with its 1-based number and its first 200 characters. *)
Fixpoint parse_log (py_eval : string -> string + pyobj) (i : nat)
         (question_strings : list string) : list event :=
  match question_strings with
  | [] => []
  | q_str :: rest =>
      match py_eval (repair q_str) with
      | inr _ => parse_log py_eval (S i) rest
      | inl e =>
          Print ("Error parsing question " ++ str_nat (i + 1) ++ ": " ++ e)
          :: Print ("String: " ++ Text.slice_to 200 (repair q_str))
          :: parse_log py_eval (S i) rest
      end
  end.

(** The trace of a run that finds the array, up to the count it prints. *)
Definition parse_trace (py_eval : string -> string + pyobj) (body : string)
  : list event :=
  let question_strings := re_split (Text.strip body) in
  (OpenRead add_questions_py :: parse_log py_eval 0 question_strings)
  ++ [Print ("Parsed "
             ++ str_nat (List.length (parsed py_eval question_strings))
             ++ " questions from Test #5")].

(** Induction on values, with the items of a list. *)
Fixpoint pyval_ind (P : pyval -> Prop)
         (HNone : P PNone) (HBool : forall b, P (PBool b))
         (HInt : forall z, P (PInt z)) (HStr : forall s, P (PStr s))
         (HList : forall items, Forall P items -> P (PList items))
         (v : pyval) {struct v} : P v :=
  match v with
  | PNone => HNone
  | PBool b => HBool b
  | PInt z => HInt z
  | PStr s => HStr s
  | PList items =>
      HList items
        ((fix all (l : list pyval) : Forall P l :=
            match l with
            | [] => Forall_nil P
            | x :: l' =>
                Forall_cons x (pyval_ind P HNone HBool HInt HStr HList x) (all l')
            end) items)
  end.

(** ** A reference evaluator

    [eval] itself is Python's; the properties below hold for every
    evaluator.  For concrete runs this module evaluates the literals the
    question records are written in: dictionaries with string keys whose
    values are [None], [True], [False], decimal integers, one-line string
    literals and lists of these.  What it accepts it evaluates as Python
    does; anything else is refused with a fixed message, which stands for the
    text of Python's own. *)

Module Literal.

Definition is_blank (c : ascii) : bool :=
  let n := nat_of_ascii c in
  (n =? 32)%nat || (n =? 9)%nat || (n =? 10)%nat || (n =? 13)%nat || (n =? 12)%nat.

Fixpoint skip_blank (s : string) : string :=
  match s with
  | EmptyString => EmptyString
  | String c s' => if is_blank c then skip_blank s' else s
  end.

Definition unescape (e : ascii) : option ascii :=
  if Ascii.eqb e "n" then Some Text.LF
  else if Ascii.eqb e "t" then Some (ascii_of_nat 9)
  else if Ascii.eqb e "r" then Some (ascii_of_nat 13)
  else if Ascii.eqb e Text.backslash then Some e
  else if Ascii.eqb e Text.quote then Some e
  else if Ascii.eqb e "'" then Some e
  else None.

(** The rest of a string literal opened by the quote [q]: its value and the
    text after the closing quote. *)
Fixpoint string_body (q : ascii) (s : string) : option (string * string) :=
  match s with
  | EmptyString => None
  | String c s' =>
      if Ascii.eqb c q then Some (EmptyString, s')
      else if Ascii.eqb c Text.LF then None
      else if Ascii.eqb c Text.backslash then
        match s' with
        | EmptyString => None
        | String e s'' =>
            match unescape e, string_body q s'' with
            | Some x, Some (t, r) => Some (String x t, r)
            | _, _ => None
            end
        end
      else
        match string_body q s' with
        | Some (t, r) => Some (String c t, r)
        | None => None
        end
  end.

Fixpoint digits (s : string) : string * string :=
  match s with
  | EmptyString => (EmptyString, EmptyString)
  | String c s' =>
      if Text.is_digit c then let (d, r) := digits s' in (String c d, r)
      else (EmptyString, s)
  end.

(** A decimal integer literal, with a sign in front of it or not. *)
Definition integer (s : string) : option (Z * string) :=
  let (neg, s1) := match s with
                   | String "-" s' => (true, s')
                   | _ => (false, s)
                   end in
  let (d, r) := digits s1 in
  match d with
  | EmptyString => None
  | String "0" (String _ _) => None
  | _ =>
      match NilZero.int_of_string d with
      | Some n => Some (if neg then (- Z.of_int n)%Z else Z.of_int n, r)
      | None => None
      end
  end.

Definition is_quote (c : ascii) : bool :=
  Ascii.eqb c Text.quote || Ascii.eqb c "'".

Fixpoint value (fuel : nat) (s : string) : option (pyval * string) :=
  match fuel with
  | O => None
  | S fuel' =>
      match skip_blank s with
      | EmptyString => None
      | String c r as s1 =>
          if Ascii.eqb c "[" then
            match items fuel' r with
            | Some (vs, r') => Some (PList vs, r')
            | None => None
            end
          else if is_quote c then
            match string_body c r with
            | Some (t, r') => Some (PStr t, r')
            | None => None
            end
          else if prefix "None" s1 then Some (PNone, Text.drop 4 s1)
          else if prefix "True" s1 then Some (PBool true, Text.drop 4 s1)
          else if prefix "False" s1 then Some (PBool false, Text.drop 5 s1)
          else
            match integer s1 with
            | Some (z, r') => Some (PInt z, r')
            | None => None
            end
      end
  end
with items (fuel : nat) (s : string) : option (list pyval * string) :=
  match fuel with
  | O => None
  | S fuel' =>
      match skip_blank s with
      | String "]" r => Some ([], r)
      | s1 =>
          match value fuel' s1 with
          | None => None
          | Some (v, r) =>
              match skip_blank r with
              | String "," r' =>
                  match items fuel' r' with
                  | Some (vs, r'') => Some (v :: vs, r'')
                  | None => None
                  end
              | String "]" r' => Some ([v], r')
              | _ => None
              end
          end
      end
  end.

Fixpoint entries (fuel : nat) (s : string) : option (list (string * pyval) * string) :=
  match fuel with
  | O => None
  | S fuel' =>
      match skip_blank s with
      | EmptyString => None
      | String c r =>
          if Ascii.eqb c "}" then Some ([], r)
          else if is_quote c then
            match string_body c r with
            | None => None
            | Some (key, r1) =>
                match skip_blank r1 with
                | String ":" r2 =>
                    match value fuel' r2 with
                    | None => None
                    | Some (v, r3) =>
                        match skip_blank r3 with
                        | String "," r4 =>
                            match entries fuel' r4 with
                            | Some (es, r5) => Some ((key, v) :: es, r5)
                            | None => None
                            end
                        | String "}" r4 => Some ([(key, v)], r4)
                        | _ => None
                        end
                    end
                | _ => None
                end
            end
          else None
      end
  end.

(** [d[key] = v] on the entries in order: a key written twice keeps its
    place and takes the last value. *)
Fixpoint dict_set (key : string) (v : pyval) (d : list (string * pyval))
  : list (string * pyval) :=
  match d with
  | [] => [(key, v)]
  | (k, v') :: rest =>
      if String.eqb k key then (key, v) :: rest
      else (k, v') :: dict_set key v rest
  end.

Definition syntax_error : string := "invalid syntax".

Definition literal_eval (s : string) : string + pyobj :=
  let fuel := 2 * String.length s + 2 in
  match skip_blank s with
  | String "{" r =>
      match entries fuel r with
      | Some (es, r') =>
          if Text.is_empty (skip_blank r')
          then inr (PDict (fold_left (fun d kv => dict_set (fst kv) (snd kv) d) es []))
          else inl syntax_error
      | None => inl syntax_error
      end
  | s1 =>
      match value fuel s1 with
      | Some (v, r') =>
          if Text.is_empty (skip_blank r') then inr (PVal v) else inl syntax_error
      | None => inl syntax_error
      end
  end.

End Literal.

(** ** Concrete runs *)

Module Scenario.

(** The source of the end-to-end scenario: two records, the first with one
    answer and the second with two. *)
Definition two_records : string :=
"# Test 5
test5_questions = [
    {'cat': 'A', 'q': 'Q1?', 'options': ['x', 'y'], 'answer': 0, 'explain': 'E1'},
    {'cat': 'B', 'q': 'Q2?', 'options': ['m', 'n'], 'answer': [0, 1], 'explain': 'E2'}
]
".

(** One record. *)
Definition one_record : string :=
"test5_questions = [
    {'cat': 'A', 'q': 'Q1?', 'options': ['x', 'y'], 'answer': 0, 'explain': 'E1'}
]
".


(** A destination of [n] complete lines. *)
Definition page (n : nat) : string :=
  String.concat "" (repeat ("<li></li>" ++ String Text.LF "") n).

End Scenario.

(** ** Reading a re-emitted record back

    Follows the specification's words: the destination format is the
    one-line object literal of [js_template]; its three quoted text fields
    are read with backslash-quote unescaping, [options] and a list-valued
    [answer] are parsed as JSON, and an [answer] that is no list is a bare
    numeral. *)

Module Js.

(** The longest head of [s] made of characters in [p], and the rest. *)
Fixpoint span (p : ascii -> bool) (s : string) : string * string :=
  match s with
  | EmptyString => (EmptyString, EmptyString)
  | String c s' =>
      if p c then let (h, r) := span p s' in (String c h, r)
      else (EmptyString, s)
  end.

(** A bare decimal numeral at the head of [s]. *)
Definition numeral (s : string) : option (Z * string) :=
  let (d, r) := span Text.numeral_char s in
  match NilZero.int_of_string d with
  | Some n => Some (Z.of_int n, r)
  | None => None
  end.

(** [s] must start with [p]; the text after it. *)
Definition expect (p s : string) : option string :=
  if prefix p s then Some (Text.drop (String.length p) s) else None.

(** A quoted text after its opening quote, with backslash-quote unescaping:
    a backslash in front of a quote is dropped, the next quote ends the text,
    a line feed cannot occur in it. *)
Fixpoint quoted (s : string) : option (string * string) :=
  match s with
  | EmptyString => None
  | String c s' =>
      if Ascii.eqb c Text.quote then Some (EmptyString, s')
      else if Ascii.eqb c Text.LF then None
      else if Ascii.eqb c Text.backslash then
        match s' with
        | String e s'' =>
            if Ascii.eqb e Text.quote then
              match quoted s'' with
              | Some (t, r) => Some (String e t, r)
              | None => None
              end
            else
              match quoted s' with
              | Some (t, r) => Some (String c t, r)
              | None => None
              end
        | EmptyString => None
        end
      else
        match quoted s' with
        | Some (t, r) => Some (String c t, r)
        | None => None
        end
  end.

(** JSON white space. *)
Definition is_ws (c : ascii) : bool :=
  let n := nat_of_ascii c in
  (n =? 32)%nat || (n =? 9)%nat || (n =? 10)%nat || (n =? 13)%nat.

Fixpoint skip_ws (s : string) : string :=
  match s with
  | EmptyString => EmptyString
  | String c s' => if is_ws c then skip_ws s' else s
  end.

Definition hex_value (c : ascii) : option nat :=
  let n := nat_of_ascii c in
  if (48 <=? n)%nat && (n <=? 57)%nat then Some (n - 48)
  else if (97 <=? n)%nat && (n <=? 102)%nat then Some (n - 87)
  else if (65 <=? n)%nat && (n <=? 70)%nat then Some (n - 55)
  else None.

(** The character of [\uXXXX], when it is in the range of [ascii]. *)
Definition unicode (h1 h2 h3 h4 : ascii) : option ascii :=
  match hex_value h1, hex_value h2, hex_value h3, hex_value h4 with
  | Some a, Some b, Some c, Some d =>
      let n := ((a * 16 + b) * 16 + c) * 16 + d in
      if (n <? 256)%nat then Some (ascii_of_nat n) else None
  | _, _, _, _ => None
  end.

Definition short_escape (e : ascii) : option ascii :=
  if Ascii.eqb e Text.quote then Some e
  else if Ascii.eqb e Text.backslash then Some e
  else if Ascii.eqb e "/" then Some e
  else if Ascii.eqb e "b" then Some (ascii_of_nat 8)
  else if Ascii.eqb e "f" then Some (ascii_of_nat 12)
  else if Ascii.eqb e "n" then Some (ascii_of_nat 10)
  else if Ascii.eqb e "r" then Some (ascii_of_nat 13)
  else if Ascii.eqb e "t" then Some (ascii_of_nat 9)
  else None.

(** A JSON string after its opening quote. *)
Fixpoint json_string (s : string) : option (string * string) :=
  match s with
  | EmptyString => None
  | String c s' =>
      if Ascii.eqb c Text.quote then Some (EmptyString, s')
      else if (nat_of_ascii c <? 32)%nat then None
      else if Ascii.eqb c Text.backslash then
        match s' with
        | String "u" (String h1 (String h2 (String h3 (String h4 s4)))) =>
            match unicode h1 h2 h3 h4, json_string s4 with
            | Some x, Some (t, r) => Some (String x t, r)
            | _, _ => None
            end
        | String e s'' =>
            match short_escape e, json_string s'' with
            | Some x, Some (t, r) => Some (String x t, r)
            | _, _ => None
            end
        | EmptyString => None
        end
      else
        match json_string s' with
        | Some (t, r) => Some (String c t, r)
        | None => None
        end
  end.

(** A JSON value at the head of [s] ([null], [true], [false], an integer, a
    string or an array), and the items of an array up to its closing
    bracket.  Every call consumes a character, so the length of the text is
    enough fuel. *)
Fixpoint value (fuel : nat) (s : string) : option (pyval * string) :=
  match fuel with
  | O => None
  | S fuel' =>
      match skip_ws s with
      | EmptyString => None
      | String c r as s1 =>
          if Ascii.eqb c "[" then
            match skip_ws r with
            | EmptyString => None
            | String c' r' =>
                if Ascii.eqb c' "]" then Some (PList [], r')
                else
                  match items fuel' r with
                  | Some (vs, r'') => Some (PList vs, r'')
                  | None => None
                  end
            end
          else if Ascii.eqb c Text.quote then
            match json_string r with
            | Some (t, r') => Some (PStr t, r')
            | None => None
            end
          else if prefix "null" s1 then Some (PNone, Text.drop 4 s1)
          else if prefix "true" s1 then Some (PBool true, Text.drop 4 s1)
          else if prefix "false" s1 then Some (PBool false, Text.drop 5 s1)
          else
            match numeral s1 with
            | Some (z, r') => Some (PInt z, r')
            | None => None
            end
      end
  end
with items (fuel : nat) (s : string) : option (list pyval * string) :=
  match fuel with
  | O => None
  | S fuel' =>
      match value fuel' s with
      | None => None
      | Some (v, r) =>
          match skip_ws r with
          | String c r' =>
              if Ascii.eqb c "," then
                match items fuel' r' with
                | Some (vs, r'') => Some (v :: vs, r'')
                | None => None
                end
              else if Ascii.eqb c "]" then Some ([v], r')
              else None
          | EmptyString => None
          end
      end
  end.

(** [JSON.parse] of the value at the head of [s]. *)
Definition json (s : string) : option (pyval * string) :=
  value (S (String.length s)) s.

(** The [answer] field: an array is JSON, anything else a bare numeral. *)
Definition answer_field (s : string) : option (pyval * string) :=
  if prefix "[" s then json s
  else
    match numeral s with
    | Some (z, r) => Some (PInt z, r)
    | None => None
    end.

(** The five values of a record. *)
Record question : Type := mk_question {
  cat : string;
  q : string;
  options : pyval;
  answer : pyval;
  explain : string
}.

Definition bind {A B : Type} (x : option A) (f : A -> option B) : option B :=
  match x with
  | Some a => f a
  | None => None
  end.

(** One line of the destination read back as a record. *)
Definition parse (line : string) : option question :=
  bind (expect ("      { cat: " ++ dq) line) (fun s =>
  bind (quoted s) (fun '(cat, s) =>
  bind (expect (", q: " ++ dq) s) (fun s =>
  bind (quoted s) (fun '(q, s) =>
  bind (expect ", options: " s) (fun s =>
  bind (json s) (fun '(options, s) =>
  bind (expect ", answer: " s) (fun s =>
  bind (answer_field s) (fun '(answer, s) =>
  bind (expect (", explain: " ++ dq) s) (fun s =>
  bind (quoted s) (fun '(explain, s) =>
  if String.eqb s " }" then Some (mk_question cat q options answer explain)
  else None)))))))))).

End Js.

(** ** Well-formed array bodies

    An array body written the expected way: records in braces, each but the
    last followed by a comma, white space that holds a line feed, and the
    next record. *)

(** The white space between two records. *)
Definition is_gap (w : string) : bool :=
  Text.all Text.is_space w && Text.mem Text.LF w.

(** The body after its first opening brace: the text [c] inside the braces
    of the first record, then the gaps and texts of the others. *)
Fixpoint body_tail (c : string) (rest : list (string * string)) : string :=
  match rest with
  | [] => c ++ "}"
  | (w, next) :: rest' => c ++ "}," ++ w ++ "{" ++ body_tail next rest'
  end.

Definition array_body (c : string) (rest : list (string * string)) : string :=
  "{" ++ body_tail c rest.

(** The pieces [re.split] makes of such a body: the separators take the
    braces between two records with them. *)
Fixpoint pieces (piece c : string) (rest : list (string * string)) : list string :=
  match rest with
  | [] => [piece ++ c ++ "}"]
  | (_, next) :: rest' => (piece ++ c) :: pieces "" next rest'
  end.

(** The text [c] between the braces of a record that denotes [r]: no
    separator occurs in it, it does not itself start or end with a brace, and
    the braced text evaluates to [r], also with the white space at its ends
    trimmed. *)
Definition well_formed (py_eval : string -> string + pyobj)
           (c : string) (r : pyobj) : Prop :=
  has_boundary c = false
  /\ Text.startswith "{" (Text.lstrip c) = false
  /\ Text.endswith "}" (Text.rstrip c) = false
  /\ (forall c', In c' [c; Text.lstrip c; Text.rstrip c; Text.strip c] ->
                 py_eval ("{" ++ c' ++ "}") = inr r).

(** A record of the body after the first: the gap in front of it, the text
    between its braces and the record it denotes. *)
Record fragment : Type := mk_fragment {
  gap : string;
  text : string;
  denotes : pyobj
}.

Definition layout (rest : list fragment) : list (string * string) :=
  map (fun f => (gap f, text f)) rest.

(** A text the quote escaping is enough for: no backslash, no line feed. *)
Definition plain (s : string) : bool :=
  negb (Text.mem Text.backslash s) && negb (Text.mem Text.LF s).

(** What may follow a numeral: the end of the text or a character that is
    no digit and no sign. *)
Definition delimited (rest : string) : Prop :=
  match rest with
  | EmptyString => True
  | String c _ => Text.numeral_char c = false
  end.

(** The character a serialised value starts with: no white space, no
    closing bracket and no comma. *)
Definition opens_value (c : ascii) : bool :=
  negb (Js.is_ws c) && negb (Ascii.eqb c "]") && negb (Ascii.eqb c ",").

(** A valid record: a dictionary with the five fields, text in [cat], [q]
    and [explain]. *)
Definition is_text (v : option pyval) : bool :=
  match v with
  | Some (PStr _) => true
  | _ => false
  end.

Definition is_some {A : Type} (v : option A) : bool :=
  match v with
  | Some _ => true
  | None => false
  end.

Definition valid_record (q : pyobj) : bool :=
  match q with
  | PDict entries =>
      is_text (lookup "cat" entries) && is_text (lookup "q" entries)
      && is_text (lookup "explain" entries)
      && is_some (lookup "options" entries) && is_some (lookup "answer" entries)
  | PVal _ => false
  end.

(** ** Vocabulary of the further properties *)

(** A text that is one separator and nothing else. *)
Definition is_separator (sep : string) : bool :=
  match match_boundary sep with
  | Some EmptyString => true
  | _ => false
  end.

(** The pieces of a split put together again, each separator between the
    two pieces it was cut from. *)
Fixpoint weave (pieces seps : list string) : string :=
  match pieces, seps with
  | p :: ps, sep :: seps' => p ++ sep ++ weave ps seps'
  | p :: _, [] => p
  | [], _ => EmptyString
  end.

(** A printable ASCII character: SPACE to TILDE. *)
Definition is_printable (c : ascii) : bool :=
  let n := nat_of_ascii c in (32 <=? n)%nat && (n <=? 126)%nat.

(** * Properties *)

(** ** Text lemmas *)

Section TextFacts.

Import Text.

Lemma append_nil_r (s : string) : s ++ "" = s.
Proof. induction s as [|c s IH]; simpl; [reflexivity | now rewrite IH]. Qed.

Lemma append_assoc (a b c : string) : (a ++ b) ++ c = a ++ (b ++ c).
Proof. induction a as [|x a IH]; simpl; [reflexivity | now rewrite IH]. Qed.

Lemma length_append (a b : string) :
  String.length (a ++ b) = String.length a + String.length b.
Proof. induction a as [|x a IH]; simpl; [reflexivity | now rewrite IH]. Qed.

Lemma lstrip_head (c : ascii) (s : string) :
  is_space c = false -> lstrip (String c s) = String c s.
Proof. intros H; simpl; now rewrite H. Qed.

Lemma endswith_char_cons (c a : ascii) (s : string) :
  s <> "" -> endswith (String c "") (String a s) = endswith (String c "") s.
Proof.
  intros Hs. destruct s as [|b s]; [congruence|].
  cbn [endswith]. 
  replace (String.eqb (String a (String b s)) (String c "")) with false; [reflexivity|].
  symmetry. apply String.eqb_neq. intros H; inversion H.
Qed.

Lemma endswith_char_app (c : ascii) (s : string) :
  endswith (String c "") (s ++ String c "") = true.
Proof.
  induction s as [|a s IH].
  - simpl. rewrite Ascii.eqb_refl. reflexivity.
  - change (String a s ++ String c "") with (String a (s ++ String c "")).
    rewrite endswith_char_cons; [exact IH|].
    destruct s; discriminate.
Qed.

Lemma rstrip_fixed (c : ascii) (s : string) :
  is_space c = false -> endswith (String c "") s = true -> rstrip s = s.
Proof.
  intros Hc. induction s as [|a s IH]; intros He; [reflexivity|].
  destruct s as [|b s].
  - cbn in He. rewrite orb_false_r in He.
    destruct (Ascii.eqb_spec a c) as [->|]; [|discriminate].
    cbn. now rewrite Hc.
  - rewrite endswith_char_cons in He by discriminate.
    specialize (IH He).
    change (rstrip (String a (String b s)))
      with (let r := rstrip (String b s) in
            if is_space a && is_empty r then "" else String a r).
    rewrite IH. cbn. now rewrite andb_false_r.
Qed.

Lemma endswith_cons_char (p c : ascii) (s : string) :
  endswith (String p "") (String c s)
  = if is_empty s then Ascii.eqb c p else endswith (String p "") s.
Proof.
  destruct s as [|b s].
  - cbn. now destruct (Ascii.eqb c p).
  - now rewrite endswith_char_cons by discriminate.
Qed.

End TextFacts.

(** ** C7: fragment repair *)

Lemma startswith_char (p c : ascii) (t : string) :
  Text.startswith (String p "") (String c t) = Ascii.eqb p c.
Proof.
  unfold Text.startswith. cbn.
  destruct (ascii_dec p c) as [->|Hn].
  - rewrite Ascii.eqb_refl. now destruct t.
  - symmetry. now apply Ascii.eqb_neq.
Qed.

Lemma repair_unfold (s : string) :
  repair s
  = (if Text.startswith "{" (Text.strip s) then "" else "{")
      ++ Text.strip s
      ++ (if Text.endswith "}" (Text.strip s) then "" else "}").
Proof.
  unfold repair. generalize (Text.strip s) as t. intros [|c t].
  - reflexivity.
  - rewrite startswith_char.
    destruct (Ascii.eqb_spec "{" c) as [<-|Hc]; cbn [negb].
    + destruct (Text.endswith "}" (String "{" t)); cbn; [|reflexivity].
      now rewrite append_nil_r.
    + change ("{" ++ String c t) with (String "{" (String c t)).
      rewrite (endswith_cons_char "}" "{" (String c t)). cbn [Text.is_empty].
      destruct (Text.endswith "}" (String c t)); cbn; [|reflexivity].
      now rewrite append_nil_r.
Qed.

Lemma repair_braced (s : string) :
  exists t, repair s = String "{" t /\ Text.endswith "}" (repair s) = true.
Proof.
  unfold repair. generalize (Text.strip s) as t. intros t.
  assert (Hhead : exists u,
             (if negb (Text.startswith "{" t) then "{" ++ t else t) = String "{" u).
  { destruct t as [|c t]; [now exists ""|].
    rewrite startswith_char.
    destruct (Ascii.eqb_spec "{" c) as [<-|Hc]; cbn; eauto. }
  destruct Hhead as (u & ->).
  destruct (Text.endswith "}" (String "{" u)) eqn:He; cbn [negb].
  - eauto.
  - eexists; split; [reflexivity|].
    apply (endswith_char_app "}" (String "{" u)).
Qed.

(** C7. The repair step puts an opening brace in front of the stripped
    fragment exactly when it does not start with one, a closing brace behind
    it exactly when it does not end with one, and repairing a repaired
    fragment changes nothing. *)
Theorem repair_adds_missing_braces_and_is_idempotent (s : string) :
  repair s
  = (if Text.startswith "{" (Text.strip s) then "" else "{")
      ++ Text.strip s
      ++ (if Text.endswith "}" (Text.strip s) then "" else "}")
  /\ repair (repair s) = repair s.
Proof.
  split; [apply repair_unfold|].
  destruct (repair_braced s) as (t & Ht & He).
  assert (Hstrip : Text.strip (repair s) = repair s).
  { unfold Text.strip. rewrite (rstrip_fixed "}" (repair s) eq_refl He).
    rewrite Ht. apply lstrip_head. reflexivity. }
  rewrite repair_unfold, Hstrip, He.
  rewrite Ht at 1. rewrite startswith_char, Ascii.eqb_refl.
  cbn. apply append_nil_r.
Qed.

(** ** Lines of a text *)

Section Lines.

Lemma writelines_cons (l : string) (ls : list string) :
  writelines (l :: ls) = l ++ writelines ls.
Proof.
  unfold writelines. destruct ls as [|l' ls]; cbn.
  - now rewrite append_nil_r.
  - reflexivity.
Qed.

Lemma writelines_app (xs ys : list string) :
  writelines (xs ++ ys) = writelines xs ++ writelines ys.
Proof.
  induction xs as [|x xs IH]; [reflexivity|].
  change ((x :: xs) ++ ys)%list with (x :: (xs ++ ys))%list.
  now rewrite !writelines_cons, IH, append_assoc.
Qed.

Lemma readlines_cons (c : ascii) (s : string) :
  readlines (String c s)
  = if Ascii.eqb c Text.LF then String c "" :: readlines s
    else match readlines s with
         | [] => [String c ""]
         | l :: ls => String c l :: ls
         end.
Proof. reflexivity. Qed.

(** Writing back what was read gives the same text. *)
Lemma writelines_readlines (s : string) : writelines (readlines s) = s.
Proof.
  induction s as [|c s IH]; [reflexivity|].
  rewrite readlines_cons. destruct (Ascii.eqb c Text.LF).
  - now rewrite writelines_cons, IH.
  - destruct (readlines s) as [|l ls].
    + cbn in IH. subst s. reflexivity.
    + rewrite writelines_cons in *. cbn. now rewrite IH.
Qed.

Lemma mem_cons_false (a c : ascii) (b : string) :
  c <> a -> Text.mem a b = false -> Text.mem a (String c b) = false.
Proof.
  intros Hc Hb. cbn [Text.mem]. rewrite Hb, orb_false_r.
  now apply Ascii.eqb_neq.
Qed.

Lemma readlines_line (b rest : string) :
  Text.mem Text.LF b = false ->
  readlines (b ++ String Text.LF rest) = (b ++ String Text.LF "") :: readlines rest.
Proof.
  induction b as [|c b IH]; intros Hb.
  - reflexivity.
  - cbn [Text.mem] in Hb. apply orb_false_iff in Hb as [Hc Hb].
    change (String c b ++ String Text.LF rest) with (String c (b ++ String Text.LF rest)).
    rewrite readlines_cons, Hc, IH by exact Hb. reflexivity.
Qed.

Lemma readlines_lines (ls : list string) (rest : string) :
  Forall is_line ls ->
  readlines (writelines ls ++ rest) = (ls ++ readlines rest)%list.
Proof.
  induction 1 as [|l ls (b & -> & Hb) _ IH]; [reflexivity|].
  rewrite writelines_cons, !append_assoc. cbn [append].
  rewrite readlines_line by exact Hb. now rewrite IH.
Qed.

Lemma readlines_nil (s : string) : readlines s = [] -> s = "".
Proof.
  intros H. rewrite <- (writelines_readlines s), H. reflexivity.
Qed.

(** Every line but the last is complete. *)
Lemma readlines_init_complete (s : string) :
  Forall is_line (removelast (readlines s)).
Proof.
  induction s as [|c s IH]; [constructor|].
  rewrite readlines_cons.
  destruct (Ascii.eqb_spec c Text.LF) as [->|Hc].
  - destruct (readlines s) as [|l ls] eqn:E; [constructor|].
    change (removelast (String Text.LF "" :: l :: ls))
      with (String Text.LF "" :: removelast (l :: ls)).
    constructor; [|exact IH]. now exists "".
  - destruct (readlines s) as [|l ls] eqn:E; [constructor|].
    destruct ls as [|l' ls]; [constructor|].
    change (removelast (String c l :: l' :: ls))
      with (String c l :: removelast (l' :: ls)).
    change (removelast (l :: l' :: ls))
      with (l :: removelast (l' :: ls)) in IH.
    inversion IH as [|? ? (b & -> & Hb) Hrest]; subst.
    constructor; [|exact Hrest].
    exists (String c b). split; [reflexivity|].
    now apply mem_cons_false.
Qed.

Lemma terminated_cons (c : ascii) (s : string) :
  s <> "" -> terminated (String c s) = terminated s.
Proof.
  intros Hs. unfold terminated. cbn [Text.is_empty].
  rewrite endswith_char_cons by exact Hs.
  destruct s; [congruence | reflexivity].
Qed.

(** In a terminated text the last line is complete too. *)
Lemma readlines_complete (s : string) :
  terminated s = true -> Forall is_line (readlines s).
Proof.
  induction s as [|c s IH]; intros Ht; [constructor|].
  rewrite readlines_cons.
  destruct s as [|d s].
  - unfold terminated in Ht. rewrite endswith_cons_char in Ht.
    cbn [Text.is_empty orb] in Ht. rewrite Ht. apply Ascii.eqb_eq in Ht as ->.
    constructor; [now exists "" | constructor].
  - rewrite terminated_cons in Ht by discriminate. specialize (IH Ht).
    destruct (Ascii.eqb_spec c Text.LF) as [->|Hc].
    + constructor; [now exists "" | exact IH].
    + destruct (readlines (String d s)) as [|l ls] eqn:E.
      * apply readlines_nil in E. discriminate.
      * inversion IH as [|? ? (b & -> & Hb) Hrest]; subst.
        constructor; [|exact Hrest].
        exists (String c b). split; [reflexivity|].
        now apply mem_cons_false.
Qed.

Lemma Forall_firstn {A : Type} (P : A -> Prop) (n : nat) (l : list A) :
  Forall P l -> Forall P (firstn n l).
Proof.
  intros H. revert n. induction H; intros [|n]; cbn; auto.
Qed.

(** The lines before index [n] are complete when line [n] exists or the
    text is terminated. *)
Lemma firstn_complete (n : nat) (s : string) :
  n < List.length (readlines s) \/ terminated s = true ->
  Forall is_line (firstn n (readlines s)).
Proof.
  intros [Hn|Ht].
  - rewrite <- (firstn_removelast (readlines s)) by exact Hn.
    apply Forall_firstn, readlines_init_complete.
  - apply Forall_firstn, readlines_complete, Ht.
Qed.

(** Reading the tail of a text from a line boundary gives the tail of
    its lines. *)
Lemma readlines_skipn (n : nat) (s : string) :
  readlines (writelines (skipn n (readlines s))) = skipn n (readlines s).
Proof.
  destruct (Nat.lt_ge_cases n (List.length (readlines s))) as [Hn|Hn].
  - pose proof (firstn_complete n s (or_introl Hn)) as Hc.
    pose proof (readlines_lines _ (writelines (skipn n (readlines s))) Hc) as H.
    rewrite <- writelines_app, firstn_skipn, writelines_readlines in H.
    rewrite <- (firstn_skipn n (readlines s)) in H at 1.
    now apply app_inv_head in H.
  - rewrite skipn_all2 by exact Hn. reflexivity.
Qed.

End Lines.

(** ** The run, stage by stage *)

Section RunFacts.

Variable py_eval : string -> string + pyobj.

Lemma parse_loop_spec (question_strings : list string) :
  forall (i : nat) (questions : list pyobj) (w : world),
    parse_loop py_eval i question_strings questions w
    = (IO.Ok (questions ++ parsed py_eval question_strings)%list,
       mk_world (disk w) (trace w ++ parse_log py_eval i question_strings)).
Proof.
  induction question_strings as [|q_str rest IH]; intros i questions w.
  - cbn. rewrite !app_nil_r. now destruct w.
  - cbn [parse_loop parsed parse_log flat_map].
    destruct (py_eval (repair q_str)) as [e|q_dict].
    + unfold IO.bind, IO.print, IO.emit. cbn [disk trace].
      rewrite IH. cbn [disk trace]. unfold parsed.
      now rewrite <- !app_assoc.
    + rewrite IH. unfold parsed. now rewrite <- app_assoc.
Qed.

Lemma run_not_found (d : files) :
  extract (source_text d) = None ->
  run py_eval d
  = (SysExit 1,
     mk_world d [OpenRead add_questions_py;
                 Print "Could not find test5_questions array"]).
Proof.
  intros H. unfold run, main, IO.bind, IO.read_file. cbn [disk trace IO.file].
  rewrite H. reflexivity.
Qed.

Lemma run_found (d : files) (body : string) :
  extract (source_text d) = Some body ->
  let questions := parsed py_eval (re_split (Text.strip body)) in
  run py_eval d
  = match js_questions questions with
    | inl e => (Uncaught e, mk_world d (parse_trace py_eval body))
    | inr js =>
        (Completed,
         mk_world (mk_files (source_text d) (splice js (dest_text d)))
           (parse_trace py_eval body
            ++ [OpenRead awsprepai_multicert_html;
                OpenWrite awsprepai_multicert_html;
                Print ("Successfully added " ++ str_nat (List.length questions)
                       ++ " questions from Test #5 to awsprepai-multicert.html");
                Print ("New total SAA questions: "
                       ++ str_nat (422 + List.length questions))]))
    end.
Proof.
  intros H questions. unfold run, main, IO.bind, IO.read_file.
  cbn [disk trace IO.file]. rewrite H, parse_loop_spec.
  cbn [disk trace app]. fold questions.
  unfold IO.print, IO.emit, IO.lift. cbn [disk trace].
  destruct (js_questions questions) as [e|js].
  - unfold IO.raise. unfold parse_trace. fold questions. now destruct d.
  - unfold IO.ret, IO.write_file. cbn [disk trace IO.file IO.store].
    unfold parse_trace. fold questions. now rewrite <- !app_assoc.
Qed.

End RunFacts.

(** ** The extractor finds the first array and its shortest body *)

Section Find.

Import Text.

Lemma prefix_append (p r : string) : prefix p (p ++ r) = true.
Proof.
  induction p as [|c p IH]; cbn.
  - now destruct r.
  - destruct (ascii_dec c c); [exact IH | congruence].
Qed.

Lemma prefix_split (p s : string) :
  prefix p s = true -> s = p ++ drop (String.length p) s.
Proof.
  revert s. induction p as [|c p IH]; intros s H.
  - now destruct s.
  - destruct s as [|a s]; [discriminate|]. cbn in H.
    destruct (ascii_dec c a) as [->|]; [|discriminate].
    cbn. f_equal. now apply IH.
Qed.

Lemma find_unfold (pat s : string) :
  find pat s
  = if prefix pat s then Some ("", drop (String.length pat) s)
    else match s with
         | "" => None
         | String c s' =>
             match find pat s' with
             | Some (before, after) => Some (String c before, after)
             | None => None
             end
         end.
Proof. destruct s; reflexivity. Qed.

Lemma find_some (pat s a b : string) :
  find pat s = Some (a, b) -> s = a ++ pat ++ b.
Proof.
  revert a. induction s as [|c s IH]; intros a; rewrite find_unfold.
  - destruct (prefix pat "") eqn:Hp; [|discriminate].
    intros [= <- <-]. now apply prefix_split.
  - destruct (prefix pat (String c s)) eqn:Hp.
    + intros [= <- <-]. now apply prefix_split.
    + destruct (find pat s) as [[a' b']|]; [|discriminate].
      intros [= <- <-]. cbn. f_equal. now apply IH.
Qed.

Lemma find_none (pat s : string) :
  find pat s = None -> forall a b, s <> a ++ pat ++ b.
Proof.
  induction s as [|c s IH]; rewrite find_unfold; intros H a b E.
  - destruct a; [|discriminate]. cbn in E. rewrite E, prefix_append in H.
    discriminate.
  - destruct a as [|x a].
    + cbn [append] in E. rewrite E, prefix_append in H. discriminate.
    + destruct (prefix pat (String c s)); [discriminate|].
      destruct (find pat s) as [[a' b']|] eqn:F; [discriminate|].
      injection E as _ E. now apply (IH eq_refl a b).
Qed.

(** [find] returns the leftmost occurrence. *)
Lemma find_leftmost (pat s a b : string) :
  find pat s = Some (a, b) ->
  forall a' b', s = a' ++ pat ++ b' -> String.length a <= String.length a'.
Proof.
  revert a. induction s as [|c s IH]; intros a; rewrite find_unfold.
  - destruct (prefix pat ""); [|discriminate].
    intros [= <- <-] a' b' _. cbn. lia.
  - destruct (prefix pat (String c s)) eqn:Hp.
    + intros [= <- <-] a' b' _. cbn. lia.
    + destruct (find pat s) as [[a0 b0]|] eqn:F; [|discriminate].
      intros [= <- <-] a' b' E. destruct a' as [|x a'].
      * cbn [append] in E. rewrite E, prefix_append in Hp. discriminate.
      * injection E as _ E. cbn. apply le_n_S. now apply (IH a0 eq_refl a' b').
Qed.

(** Two ways to cut one text: the shorter head is a head of the longer. *)
Lemma append_cut (a b c d : string) :
  a ++ b = c ++ d -> String.length a <= String.length c ->
  exists x, c = a ++ x /\ b = x ++ d.
Proof.
  revert c. induction a as [|x a IH]; intros c E L.
  - exists c. now split.
  - destruct c as [|y c]; [cbn in L; lia|].
    injection E as -> E. cbn in L. apply le_S_n in L.
    destruct (IH c E L) as (z & -> & ->). now exists z.
Qed.

(** [re.search] finds nothing exactly when no array literal with a closing
    bracket at the start of a later line is in the text. *)
Lemma extract_none_iff (content : string) :
  extract content = None
  <-> forall pre body post,
      content <> pre ++ array_open ++ body ++ array_close ++ post.
Proof.
  unfold extract. split.
  - destruct (find array_open content) as [[pre rest]|] eqn:F.
    + destruct (find array_close rest) as [[body post]|] eqn:G; [discriminate|].
      intros _ pre' body' post' E.
      pose proof (find_leftmost _ _ _ _ F pre' _ E) as L.
      apply find_some in F.
      assert (E' : (pre ++ array_open) ++ rest
                   = (pre' ++ array_open) ++ (body' ++ array_close ++ post')).
      { rewrite !append_assoc, <- F. exact E. }
      destruct (append_cut _ _ _ _ E') as (x & _ & Hx).
      { rewrite !length_append. lia. }
      apply (find_none _ _ G (x ++ body') post').
      now rewrite Hx, !append_assoc.
    + intros _ pre body post E.
      now apply (find_none _ _ F pre (body ++ array_close ++ post)).
  - intros H. destruct (find array_open content) as [[pre rest]|] eqn:F; [|reflexivity].
    destruct (find array_close rest) as [[body post]|] eqn:G; [|reflexivity].
    apply find_some in F, G. exfalso. apply (H pre body post). now rewrite F, G.
Qed.

(** What [re.search] captures lies between the opening literal and a closing
    one. *)
Lemma extract_some (content body : string) :
  extract content = Some body ->
  exists pre post, content = pre ++ array_open ++ body ++ array_close ++ post.
Proof.
  unfold extract.
  destruct (find array_open content) as [[pre rest]|] eqn:F; [|discriminate].
  destruct (find array_close rest) as [[b post]|] eqn:G; [|discriminate].
  intros [= <-]. apply find_some in F, G. exists pre, post. now rewrite F, G.
Qed.

End Find.

(** ** C4: no array, no run *)

(** C4. When the search for the [test5_questions] array finds nothing, the
    script prints its diagnostic and exits with status 1 at once; the
    destination file is neither opened for reading nor for writing and keeps
    its text. *)
Theorem missing_array_exits_before_destination
        (py_eval : string -> string + pyobj) (d : files) :
  extract (source_text d) = None ->
  fst (run py_eval d) = SysExit 1
  /\ exit_status (fst (run py_eval d)) = 1%Z
  /\ trace (snd (run py_eval d))
     = [OpenRead add_questions_py; Print "Could not find test5_questions array"]
  /\ ~ In (OpenRead awsprepai_multicert_html) (trace (snd (run py_eval d)))
  /\ ~ In (OpenWrite awsprepai_multicert_html) (trace (snd (run py_eval d)))
  /\ disk (snd (run py_eval d)) = d.
Proof.
  intros H. rewrite (run_not_found py_eval d H). cbn.
  repeat split; try reflexivity; intros [E|[E|[]]]; discriminate.
Qed.

Lemma missing_array_exits_before_destination_witness :
  let d := mk_files "questions = []" "<html>" in
  extract (source_text d) = None
  /\ fst (run Literal.literal_eval d) = SysExit 1
  /\ disk (snd (run Literal.literal_eval d)) = d.
Proof.
  intros d.
  assert (H : extract (source_text d) = None) by reflexivity.
  destruct (missing_array_exits_before_destination Literal.literal_eval d H)
    as (H1 & _ & _ & _ & _ & H2).
  exact (conj H (conj H1 H2)).
Defined.

(** ** Characters of the re-emitted text *)

Section Chars.

Import Text.

Lemma mem_append (c : ascii) (a b : string) :
  mem c (a ++ b) = mem c a || mem c b.
Proof.
  induction a as [|x a IH]; cbn [append mem]; [reflexivity|].
  now rewrite IH, orb_assoc.
Qed.

Lemma all_append (p : ascii -> bool) (a b : string) :
  all p (a ++ b) = all p a && all p b.
Proof.
  induction a as [|x a IH]; cbn [append all]; [reflexivity|].
  now rewrite IH, andb_assoc.
Qed.

Lemma all_mem (p : ascii -> bool) (c : ascii) (s : string) :
  all p s = true -> p c = false -> mem c s = false.
Proof.
  intros Hs Hc. induction s as [|x s IH]; [reflexivity|].
  cbn [all mem] in *. apply andb_true_iff in Hs as [Hx Hs].
  rewrite (IH Hs), orb_false_r. destruct (Ascii.eqb_spec x c) as [->|]; congruence.
Qed.

Lemma uint_digits (d : Decimal.uint) :
  all numeral_char (NilEmpty.string_of_uint d) = true.
Proof. induction d; cbn [NilEmpty.string_of_uint all]; try rewrite IHd; reflexivity. Qed.

(** [str(n)] is made of digits and at most a sign. *)
Lemma str_int_numeral (z : Z) : all numeral_char (str_int z) = true.
Proof.
  unfold str_int, NilZero.string_of_int.
  destruct (Z.to_int z) as [d|d]; cbn [all]; unfold NilZero.string_of_uint;
    destruct d; try reflexivity; apply uint_digits.
Qed.

Lemma str_int_no_lf (z : Z) : mem LF (str_int z) = false.
Proof. apply (all_mem numeral_char); [apply str_int_numeral | reflexivity]. Qed.

Lemma escape_char_no_lf (c : ascii) : mem LF (Json.escape_char c) = false.
Proof. destruct c as [[] [] [] [] [] [] [] []]; reflexivity. Qed.

Lemma escape_no_lf (s : string) : mem LF (Json.escape s) = false.
Proof.
  induction s as [|c s IH]; [reflexivity|].
  cbn [Json.escape]. now rewrite mem_append, escape_char_no_lf, IH.
Qed.

Lemma join_no_lf (sep : string) (parts : list string) :
  mem LF sep = false ->
  Forall (fun part => mem LF part = false) parts ->
  mem LF (join sep parts) = false.
Proof.
  intros Hsep. induction 1 as [|x xs Hx Hxs IH]; [reflexivity|].
  unfold join in *. cbn [String.concat]. destruct xs as [|y xs]; [exact Hx|].
  now rewrite !mem_append, Hx, Hsep, IH.
Qed.

(** [json.dumps] writes no line feed: it escapes the ones in the strings. *)
Lemma dumps_no_lf (v : pyval) : mem LF (Json.dumps v) = false.
Proof.
  induction v as [| [] | z | s | items IH] using pyval_ind;
    try reflexivity.
  - apply str_int_no_lf.
  - cbn [Json.dumps Json.encode_string mem].
    rewrite mem_append, escape_no_lf. reflexivity.
  - cbn [Json.dumps]. rewrite !mem_append, join_no_lf; try reflexivity.
    now apply Forall_map.
Qed.

Lemma replace_no_lf (new s : string) :
  mem LF new = false -> mem LF s = false -> mem LF (replace quote new s) = false.
Proof.
  intros Hn. induction s as [|c s IH]; intros Hs; [reflexivity|].
  cbn [mem] in Hs. apply orb_false_iff in Hs as [Hc Hs].
  cbn [replace]. destruct (Ascii.eqb c quote).
  - now rewrite mem_append, Hn, IH.
  - cbn [mem]. now rewrite Hc, IH.
Qed.

End Chars.

(** ** The shape of a re-emitted record *)

(** A record is re-emitted exactly when it is a dictionary with the five
    fields, text in [cat], [q] and [explain]; the line is the template filled
    with the escaped texts and the serialised [options] and [answer]. *)
Lemma js_q_inr (q : pyobj) (line : string) :
  js_q q = inr line <->
  exists entries answer cat question explain options,
    q = PDict entries
    /\ lookup "answer" entries = Some answer
    /\ lookup "cat" entries = Some (PStr cat)
    /\ lookup "q" entries = Some (PStr question)
    /\ lookup "explain" entries = Some (PStr explain)
    /\ lookup "options" entries = Some options
    /\ line = js_template (esc cat) (esc question) (Json.dumps options)
                          (answer_str answer) (esc explain).
Proof.
  split.
  - unfold js_q. destruct q as [entries|v]; [|discriminate].
    unfold subscript.
    destruct (lookup "answer" entries) as [answer|] eqn:Ha; [|discriminate].
    destruct (lookup "cat" entries) as [[| | |cat|]|] eqn:Hc; try discriminate.
    destruct (lookup "q" entries) as [[| | |question|]|] eqn:Hq; try discriminate.
    destruct (lookup "explain" entries) as [[| | |explain|]|] eqn:He;
      try discriminate.
    destruct (lookup "options" entries) as [options|] eqn:Ho; [|discriminate].
    cbn [bind_exn escape_quotes]. intros [= <-].
    exists entries, answer, cat, question, explain, options. now repeat split.
  - intros (entries & answer & cat & question & explain & options
            & -> & Ha & Hc & Hq & He & Ho & ->).
    unfold js_q, subscript. rewrite Ha, Hc, Hq, He, Ho. reflexivity.
Qed.

Lemma js_questions_Forall2 (questions : list pyobj) (js : list string) :
  js_questions questions = inr js <->
  Forall2 (fun q line => js_q q = inr line) questions js.
Proof.
  revert js. induction questions as [|q rest IH]; intros js; cbn [js_questions].
  - split; [intros [= <-]; constructor | now inversion 1].
  - unfold bind_exn at 1. destruct (js_q q) as [e|line] eqn:Eq.
    + split; [discriminate | inversion 1; congruence].
    + unfold bind_exn. destruct (js_questions rest) as [e|lines] eqn:Er.
      * split; [discriminate|]. inversion 1 as [|? ? ? ? Hq Hrest]; subst.
        apply IH in Hrest. discriminate.
      * split.
        -- intros [= <-]. constructor; [exact Eq | now apply IH].
        -- inversion 1 as [|? ? ? ? Hq Hrest]; subst.
           apply IH in Hrest. congruence.
Qed.

Lemma js_questions_length (questions : list pyobj) (js : list string) :
  js_questions questions = inr js -> List.length js = List.length questions.
Proof.
  intros H. apply js_questions_Forall2 in H. symmetry.
  induction H; cbn; congruence.
Qed.

Lemma answer_str_no_lf (answer : pyval) :
  text_has_newline answer = false -> Text.mem Text.LF (answer_str answer) = false.
Proof.
  unfold answer_str. destruct answer as [| [] | z | s | items]; cbn; auto.
  - intros _. apply str_int_no_lf.
  - intros _. apply (dumps_no_lf (PList items)).
Qed.

(** A record whose written-out texts hold no line feed is re-emitted as one
    line. *)
Lemma js_q_no_lf (q : pyobj) (line : string) :
  js_q q = inr line -> embedded_newline q = false ->
  Text.mem Text.LF line = false.
Proof.
  intros H N. apply js_q_inr in H
    as (entries & answer & cat & question & explain & options
        & -> & Ha & Hc & Hq & He & Ho & ->).
  cbn [embedded_newline existsb] in N. rewrite Ha, Hc, Hq, He in N.
  cbn [text_has_newline] in N.
  apply orb_false_iff in N as [Ncat N].
  apply orb_false_iff in N as [Nq N].
  apply orb_false_iff in N as [Ne N].
  apply orb_false_iff in N as [Na _].
  unfold js_template, dq. rewrite !mem_append.
  unfold esc.
  rewrite !replace_no_lf, dumps_no_lf, answer_str_no_lf by (reflexivity || assumption).
  reflexivity.
Qed.

(** ** Splicing *)

Section Splice.

Lemma splice_text (js : list string) (html : string) :
  splice js html
  = writelines (firstn insert_line (readlines html))
    ++ new_questions_text js
    ++ writelines (skipn insert_line (readlines html)).
Proof.
  unfold splice, list_insert.
  now rewrite writelines_app, writelines_cons.
Qed.

Lemma readlines_append (a b : string) :
  terminated a = true -> readlines (a ++ b) = (readlines a ++ readlines b)%list.
Proof.
  intros Ha. rewrite <- (writelines_readlines a) at 1.
  apply readlines_lines, readlines_complete, Ha.
Qed.

Lemma new_questions_text_terminated (js : list string) :
  terminated (new_questions_text js) = true.
Proof.
  unfold new_questions_text, terminated.
  rewrite <- append_assoc, endswith_char_app. apply orb_true_r.
Qed.

Lemma new_questions_text_lines (js : list string) :
  js <> [] -> new_questions_text js = writelines (block_lines js).
Proof.
  unfold new_questions_text, Text.join, block_lines.
  induction js as [|j js IH]; [congruence|]. intros _.
  destruct js as [|j' js].
  - reflexivity.
  - change (map ?f (j :: j' :: js)) with (f j :: map f (j' :: js)).
    rewrite writelines_cons, <- IH by discriminate.
    cbn [String.concat]. now rewrite !append_assoc.
Qed.

Lemma block_lines_complete (js : list string) :
  Forall (fun j => Text.mem Text.LF j = false) js ->
  Forall is_line (block_lines js).
Proof.
  induction 1 as [|j js Hj _ IH]; constructor; [|exact IH].
  exists (j ++ ","). split; [now rewrite append_assoc|].
  now rewrite mem_append, Hj.
Qed.

(** The block read back: one line for every record that holds no line
    feed. *)
Lemma readlines_block (js : list string) :
  js <> [] -> Forall (fun j => Text.mem Text.LF j = false) js ->
  readlines (new_questions_text js) = block_lines js.
Proof.
  intros Hne Hjs. rewrite new_questions_text_lines by exact Hne.
  rewrite <- (append_nil_r (writelines _)).
  rewrite readlines_lines by now apply block_lines_complete.
  apply app_nil_r.
Qed.

(** The lines of the rewritten file when the block lands on a line
    boundary. *)
Lemma readlines_splice (js : list string) (html : string) :
  insert_line < List.length (readlines html) \/ terminated html = true ->
  readlines (splice js html)
  = (firstn insert_line (readlines html)
     ++ readlines (new_questions_text js)
     ++ skipn insert_line (readlines html))%list.
Proof.
  intros H. rewrite splice_text.
  rewrite readlines_lines by now apply firstn_complete.
  rewrite readlines_append by apply new_questions_text_terminated.
  now rewrite readlines_skipn.
Qed.

End Splice.

(** ** C10: a destination of 773 lines or fewer *)

Lemma list_insert_past_end {A : Type} (i : nat) (x : A) (l : list A) :
  List.length l <= i -> list_insert i x l = (l ++ [x])%list.
Proof.
  intros H. unfold list_insert. now rewrite firstn_all2, skipn_all2.
Qed.

(** C10. Once the records are parsed and re-emitted the run completes
    whatever the number of lines of the destination is; when there are 773
    lines or fewer, [insert] puts the block behind the last line, and the file
    is rewritten with the block at its end. *)
Theorem short_destination_gets_block_appended
        (py_eval : string -> string + pyobj) (d : files)
        (body : string) (js : list string) :
  extract (source_text d) = Some body ->
  js_questions (parsed py_eval (re_split (Text.strip body))) = inr js ->
  fst (run py_eval d) = Completed
  /\ In (OpenWrite awsprepai_multicert_html) (trace (snd (run py_eval d)))
  /\ dest_text (disk (snd (run py_eval d))) = splice js (dest_text d)
  /\ (List.length (readlines (dest_text d)) <= insert_line ->
      list_insert insert_line (new_questions_text js) (readlines (dest_text d))
      = (readlines (dest_text d) ++ [new_questions_text js])%list
      /\ dest_text (disk (snd (run py_eval d)))
         = dest_text d ++ new_questions_text js).
Proof.
  intros Hx Hjs. pose proof (run_found py_eval d body Hx) as R.
  cbv zeta in R. rewrite Hjs in R. rewrite R. cbn [fst snd disk trace dest_text].
  repeat split.
  - apply in_or_app. right. cbn. auto.
  - now apply list_insert_past_end.
  - unfold splice. rewrite list_insert_past_end by assumption.
    now rewrite writelines_app, writelines_readlines, writelines_cons, append_nil_r.
Qed.

Lemma short_destination_gets_block_appended_witness :
  let d := mk_files Scenario.one_record (Scenario.page 3) in
  fst (run Literal.literal_eval d) = Completed
  /\ dest_text (disk (snd (run Literal.literal_eval d)))
     = Scenario.page 3
       ++ "      { cat: " ++ dq ++ "A" ++ dq ++ ", q: " ++ dq ++ "Q1?" ++ dq
       ++ ", options: [" ++ dq ++ "x" ++ dq ++ ", " ++ dq ++ "y" ++ dq
       ++ "], answer: 0, explain: " ++ dq ++ "E1" ++ dq ++ " },"
       ++ String Text.LF "".
Proof.
  intros d.
  destruct (short_destination_gets_block_appended Literal.literal_eval d
              (match extract (source_text d) with Some b => b | None => "" end)
              (match js_questions
                       (parsed Literal.literal_eval
                          (re_split (Text.strip
                             (match extract (source_text d) with
                              | Some b => b
                              | None => ""
                              end)))) with
               | inr js => js
               | inl _ => []
               end))
    as (H1 & _ & _ & H2).
  - vm_compute. reflexivity.
  - vm_compute. reflexivity.
  - split; [exact H1|].
    destruct H2 as [_ H2]; [vm_compute; lia|].
    rewrite H2. vm_compute. reflexivity.
Defined.

(** ** C9: the lines that were there *)





(** ** C3: one line for every record *)

Lemma block_lines_length (js : list string) :
  List.length (block_lines js) = List.length js.
Proof. apply length_map. Qed.

Lemma js_questions_no_lf (questions : list pyobj) (js : list string) :
  js_questions questions = inr js ->
  Forall (fun q => embedded_newline q = false) questions ->
  Forall (fun j => Text.mem Text.LF j = false) js.
Proof.
  intros H. apply js_questions_Forall2 in H.
  induction H as [|q line questions js Hq _ IH]; intros F; constructor;
    inversion F; subst; eauto using js_q_no_lf.
Qed.

(** C3, amended.  When N >= 1 records parse (and are re-emitted), none of
    their texts holds a line feed, and the destination has a line 773 or else
    is empty or ends in a line feed, the run completes and the lines of the
    rewritten file are the old lines below index 773, the N lines of the
    block, and the old lines from index 773 on: N lines more than before. *)
Theorem block_adds_one_line_per_record
        (py_eval : string -> string + pyobj) (d : files)
        (body : string) (js : list string) :
  extract (source_text d) = Some body ->
  let questions := parsed py_eval (re_split (Text.strip body)) in
  js_questions questions = inr js ->
  1 <= List.length questions ->
  Forall (fun q => embedded_newline q = false) questions ->
  insert_line < List.length (readlines (dest_text d))
  \/ terminated (dest_text d) = true ->
  let old := readlines (dest_text d) in
  let new := readlines (dest_text (disk (snd (run py_eval d)))) in
  fst (run py_eval d) = Completed
  /\ new = (firstn insert_line old ++ block_lines js ++ skipn insert_line old)%list
  /\ List.length (block_lines js) = List.length questions
  /\ List.length new = List.length old + List.length questions.
Proof.
  intros Hx questions Hjs Hn Hlf Hd old new.
  pose proof (run_found py_eval d body Hx) as R. cbv zeta in R.
  fold questions in R. rewrite Hjs in R.
  assert (Hlen : List.length js = List.length questions)
    by now apply js_questions_length.
  assert (Hnew : new = (firstn insert_line old ++ block_lines js
                        ++ skipn insert_line old)%list).
  { unfold new. rewrite R. cbn [snd disk dest_text].
    rewrite readlines_splice by exact Hd.
    rewrite readlines_block; [reflexivity| |].
    - intros ->. change (List.length (@nil string)) with 0 in Hlen. lia.
    - now apply (js_questions_no_lf questions). }
  repeat split.
  - now rewrite R.
  - exact Hnew.
  - now rewrite block_lines_length.
  - rewrite Hnew, !length_app, block_lines_length, Hlen.
    rewrite <- (firstn_skipn insert_line old) at 3. rewrite length_app. lia.
Qed.

(** The end-to-end scenario: two records, a destination of 776 lines. *)
Lemma block_adds_one_line_per_record_witness :
  let d := mk_files Scenario.two_records (Scenario.page 776) in
  List.length (readlines (dest_text (disk (snd (run Literal.literal_eval d)))))
  = List.length (readlines (dest_text d)) + 2.
Proof.
  intros d.
  destruct (block_adds_one_line_per_record Literal.literal_eval d
              (match extract (source_text d) with Some b => b | None => "" end)
              (match js_questions
                       (parsed Literal.literal_eval
                          (re_split (Text.strip
                             (match extract (source_text d) with
                              | Some b => b
                              | None => ""
                              end)))) with
               | inr js => js
               | inl _ => []
               end))
    as (_ & _ & _ & H).
  - vm_compute. reflexivity.
  - vm_compute. reflexivity.
  - vm_compute. lia.
  - vm_compute. repeat constructor.
  - left. vm_compute. lia.
  - exact H.
Defined.

(** C3 as stated fails: two records into a destination of two lines, the
    second without a line feed, make three lines. *)
Lemma unterminated_short_destination_grows_by_less :
  let d := mk_files Scenario.two_records
                    ("<html>" ++ String Text.LF "</html>") in
  let questions :=
    parsed Literal.literal_eval
      (re_split (Text.strip
         (match extract (source_text d) with Some b => b | None => "" end))) in
  fst (run Literal.literal_eval d) = Completed
  /\ List.length questions = 2
  /\ forallb (fun q => negb (embedded_newline q)) questions = true
  /\ List.length (readlines (dest_text d)) = 2
  /\ List.length (readlines (dest_text (disk (snd (run Literal.literal_eval d)))))
     <> List.length (readlines (dest_text d)) + List.length questions.
Proof.
  vm_compute. repeat split. discriminate.
Qed.

(** ** C1: the answer field *)

Lemma to_int_proper (z : Z) :
  Z.to_int z <> Decimal.Pos Decimal.Nil /\ Z.to_int z <> Decimal.Neg Decimal.Nil.
Proof.
  destruct z as [|p|p]; cbn; split; try discriminate;
    intros [= H]; now apply Unsigned.to_uint_nonnil in H.
Qed.

(** The numeral [str] writes reads back as the same integer. *)
Lemma int_of_str_int (z : Z) :
  NilZero.int_of_string (str_int z) = Some (Z.to_int z).
Proof.
  unfold str_int. destruct (to_int_proper z). now apply NilZero.isi.
Qed.

Lemma span_numeral (d rest : string) :
  Text.all Text.numeral_char d = true ->
  delimited rest ->
  Js.span Text.numeral_char (d ++ rest) = (d, rest).
Proof.
  intros Hd Hr. induction d as [|c d IH].
  - destruct rest as [|c r]; [reflexivity|]. cbn. now rewrite Hr.
  - cbn [Text.all] in Hd. apply andb_true_iff in Hd as [Hc Hd].
    cbn [append Js.span]. now rewrite Hc, IH.
Qed.

Lemma numeral_str_int (z : Z) (rest : string) :
  delimited rest ->
  Js.numeral (str_int z ++ rest) = Some (z, rest).
Proof.
  intros Hr. unfold Js.numeral.
  rewrite span_numeral by (apply str_int_numeral || exact Hr).
  now rewrite int_of_str_int, DecimalZ.of_to.
Qed.



(** ** C2: quotes, and nothing but quotes *)

Lemma esc_append (a b : string) : esc (a ++ b) = esc a ++ esc b.
Proof.
  unfold esc. induction a as [|c a IH]; [reflexivity|].
  cbn [append Text.replace]. destruct (Ascii.eqb c Text.quote).
  - now rewrite IH, append_assoc.
  - cbn [append]. now rewrite IH.
Qed.

Lemma esc_other (c : ascii) :
  c <> Text.quote -> esc (String c "") = String c "".
Proof.
  intros H. unfold esc. cbn [Text.replace]. apply Ascii.eqb_neq in H.
  now rewrite H.
Qed.

Lemma esc_no_quote (s : string) :
  Text.mem Text.quote s = false -> esc s = s.
Proof.
  unfold esc. induction s as [|c s IH]; [reflexivity|].
  cbn [Text.mem Text.replace]. intros H. apply orb_false_iff in H as [Hc Hs].
  now rewrite Hc, IH.
Qed.

(** C2. The line of every record that is re-emitted holds its [cat], [q] and
    [explain] texts between the quotes of the template, escaped by a map that
    works character by character: a double quote becomes a backslash and the
    quote, every other character (a backslash, a line feed, a control
    character) stays as it is. *)
Theorem text_fields_escape_quotes_only (q : pyobj) (line : string) :
  js_q q = inr line ->
  (exists entries cat question explain options answer,
      q = PDict entries
      /\ lookup "cat" entries = Some (PStr cat)
      /\ lookup "q" entries = Some (PStr question)
      /\ lookup "explain" entries = Some (PStr explain)
      /\ line = js_template (esc cat) (esc question) options answer (esc explain))
  /\ (forall a b, esc (a ++ b) = esc a ++ esc b)
  /\ esc (String Text.quote "") = String Text.backslash (String Text.quote "")
  /\ (forall c, c <> Text.quote -> esc (String c "") = String c "")
  /\ (forall s, Text.mem Text.quote s = false -> esc s = s).
Proof.
  intros H. split.
  - apply js_q_inr in H
      as (entries & answer & cat & question & explain & options
          & -> & _ & Hc & Hq & He & _ & ->).
    exists entries, cat, question, explain, (Json.dumps options),
           (answer_str answer).
    now repeat split.
  - repeat split.
    + apply esc_append.
    + apply esc_other.
    + apply esc_no_quote.
Qed.

Lemma text_fields_escape_quotes_only_witness :
  let said := "say " ++ dq ++ "hi" ++ dq ++ " \ twice" in
  let record := PDict [("cat", PStr "A"); ("q", PStr said);
                       ("options", PList []); ("answer", PInt 1);
                       ("explain", PStr "E")] in
  exists options answer,
    js_q record
    = inr (js_template "A"
             ("say " ++ Json.bs Text.quote ++ "hi" ++ Json.bs Text.quote ++ " \ twice")
             options answer "E").
Proof.
  intros said record.
  destruct (text_fields_escape_quotes_only record
              (match js_q record with inr l => l | inl _ => "" end) eq_refl)
    as ((entries & cat & question & explain & options & answer
         & E & Hc & Hq & He & Hl) & _).
  injection E as <-. injection Hc as <-. injection Hq as <-. injection He as <-.
  exists options, answer. exact (f_equal inr Hl).
Defined.

(** ** C5: a fragment that does not evaluate *)



Lemma valid_record_iff (q : pyobj) :
  valid_record q = true <-> exists line, js_q q = inr line.
Proof.
  split.
  - destruct q as [entries|v]; [|discriminate]. cbn [valid_record].
    destruct (lookup "cat" entries) as [[| | |cat|]|] eqn:Hc; try discriminate.
    destruct (lookup "q" entries) as [[| | |question|]|] eqn:Hq; try discriminate.
    destruct (lookup "explain" entries) as [[| | |explain|]|] eqn:He;
      try discriminate.
    destruct (lookup "options" entries) as [options|] eqn:Ho; [|discriminate].
    destruct (lookup "answer" entries) as [answer|] eqn:Ha; [|discriminate].
    intros _. eexists. apply js_q_inr.
    exists entries, answer, cat, question, explain, options. now repeat split.
  - intros (line & H). apply js_q_inr in H
      as (entries & answer & cat & question & explain & options
          & -> & Ha & Hc & Hq & He & Ho & _).
    cbn [valid_record]. now rewrite Ha, Hc, Hq, He, Ho.
Qed.




(** ** Stripping and repairing the pieces of a split *)

Section Trim.

Import Text.

Lemma endswith_append (c : ascii) (a b : string) :
  b <> "" -> endswith (String c "") (a ++ b) = endswith (String c "") b.
Proof.
  intros Hb. induction a as [|x a IH]; [reflexivity|].
  change (String x a ++ b) with (String x (a ++ b)).
  rewrite endswith_char_cons; [exact IH|].
  destruct a; [exact Hb | discriminate].
Qed.

Lemma lstrip_lead (lead s : string) :
  all is_space lead = true -> lstrip (lead ++ s) = lstrip s.
Proof.
  induction lead as [|c lead IH]; [reflexivity|]. cbn [all append lstrip].
  intros H. apply andb_true_iff in H as [Hc H]. now rewrite Hc, IH.
Qed.

Lemma rstrip_spaces (t : string) : all is_space t = true -> rstrip t = "".
Proof.
  induction t as [|c t IH]; [reflexivity|]. cbn [all rstrip].
  intros H. apply andb_true_iff in H as [Hc H]. now rewrite (IH H), Hc.
Qed.

Lemma rstrip_trail (s trail : string) :
  all is_space trail = true -> rstrip (s ++ trail) = rstrip s.
Proof.
  intros H. induction s as [|c s IH]; [now apply rstrip_spaces|].
  cbn [append rstrip]. now rewrite IH.
Qed.

Lemma lstrip_append (s t : string) (c : ascii) :
  is_space c = false -> lstrip (s ++ String c t) = lstrip s ++ String c t.
Proof.
  intros Hc. induction s as [|a s IH]; cbn [append lstrip].
  - now rewrite Hc.
  - destruct (is_space a); [exact IH | reflexivity].
Qed.

Lemma lstrip_rstrip (s : string) : lstrip (rstrip s) = rstrip (lstrip s).
Proof.
  induction s as [|a s IH]; [reflexivity|].
  cbn [rstrip lstrip]. destruct (is_space a) eqn:Ha; cbn [andb].
  - destruct (rstrip s) eqn:E; cbn [is_empty].
    + now rewrite <- IH.
    + rewrite <- IH. cbn [lstrip]. now rewrite Ha.
  - cbn [lstrip rstrip]. now rewrite Ha.
Qed.

Lemma endswith_lstrip (p : ascii) (s : string) :
  is_space p = false ->
  endswith (String p "") (lstrip s) = endswith (String p "") s.
Proof.
  intros Hp. induction s as [|a s IH]; [reflexivity|].
  cbn [lstrip]. destruct (is_space a) eqn:Ha; [|reflexivity].
  rewrite IH, endswith_cons_char. destruct s as [|b s]; [|reflexivity].
  cbn [is_empty]. destruct (Ascii.eqb_spec a p) as [->|]; [congruence|reflexivity].
Qed.

Lemma startswith_rstrip (p : ascii) (s : string) :
  is_space p = false ->
  startswith (String p "") (rstrip s) = startswith (String p "") s.
Proof.
  intros Hp. destruct s as [|a s]; [reflexivity|].
  cbn [rstrip]. destruct (is_space a && is_empty (rstrip s)) eqn:E.
  - apply andb_true_iff in E as [Ha _]. rewrite startswith_char.
    destruct (Ascii.eqb_spec p a) as [->|]; [congruence|reflexivity].
  - now rewrite !startswith_char.
Qed.

Lemma startswith_append (p c : ascii) (s t : string) :
  p <> c ->
  startswith (String p "") (s ++ String c t) = startswith (String p "") s.
Proof.
  intros H. destruct s as [|a s].
  - cbn [append]. rewrite startswith_char. now apply Ascii.eqb_neq.
  - cbn [append]. now rewrite !startswith_char.
Qed.

(** A braced text is repaired to itself. *)
Lemma repair_braced_text (c : string) :
  repair ("{" ++ c ++ "}") = "{" ++ c ++ "}".
Proof.
  assert (He : endswith "}" ("{" ++ c ++ "}") = true)
    by (rewrite <- append_assoc; apply endswith_char_app).
  assert (Hs : strip ("{" ++ c ++ "}") = "{" ++ c ++ "}").
  { unfold strip. rewrite (rstrip_fixed "}") by (reflexivity || exact He).
    reflexivity. }
  rewrite repair_unfold, Hs, He. cbn [append]. rewrite startswith_char.
  cbn. now rewrite append_nil_r.
Qed.

(** The first piece of several: its closing brace went with the separator. *)
Lemma repair_first (c : string) :
  endswith "}" (rstrip c) = false -> repair ("{" ++ c) = "{" ++ rstrip c ++ "}".
Proof.
  intros He.
  assert (Hs : strip ("{" ++ c) = "{" ++ rstrip c) by reflexivity.
  rewrite repair_unfold, Hs. cbn [append]. rewrite startswith_char.
  rewrite endswith_cons_char.
  destruct (rstrip c) as [|a t] eqn:E; cbn [is_empty]; [reflexivity|].
  now rewrite He.
Qed.

(** The last piece of several: its opening brace went with the separator. *)
Lemma repair_last (c : string) :
  startswith "{" (lstrip c) = false -> repair (c ++ "}") = "{" ++ lstrip c ++ "}".
Proof.
  intros Hs.
  assert (E : strip (c ++ "}") = lstrip c ++ "}").
  { unfold strip. rewrite (rstrip_fixed "}")
      by (reflexivity || apply endswith_char_app).
    now apply lstrip_append. }
  rewrite repair_unfold, E, endswith_char_app.
  rewrite startswith_append, Hs by discriminate.
  now rewrite append_nil_r.
Qed.

(** A piece in the middle: both braces went with the separators. *)
Lemma repair_middle (c : string) :
  startswith "{" (lstrip c) = false -> endswith "}" (rstrip c) = false ->
  repair c = "{" ++ strip c ++ "}".
Proof.
  intros Hs He. rewrite repair_unfold.
  assert (Hs' : startswith "{" (strip c) = false).
  { unfold strip. rewrite lstrip_rstrip.
    now rewrite (startswith_rstrip "{") by reflexivity. }
  assert (He' : endswith "}" (strip c) = false).
  { unfold strip. now rewrite (endswith_lstrip "}") by reflexivity. }
  now rewrite Hs', He'.
Qed.

(** White space around a braced text is stripped. *)
Lemma strip_padded (lead trail s : string) :
  all is_space lead = true -> all is_space trail = true ->
  endswith "}" ("{" ++ s) = true ->
  strip (lead ++ ("{" ++ s) ++ trail) = "{" ++ s.
Proof.
  intros Hl Ht He. unfold strip.
  rewrite <- append_assoc, rstrip_trail by exact Ht.
  rewrite (rstrip_fixed "}"); [now rewrite lstrip_lead | reflexivity |].
  now rewrite endswith_append by discriminate.
Qed.

End Trim.

(** ** Splitting a well-formed body *)

Section Split.

Import Text.

Lemma boundary_tail_inside (t u : string) :
  forall b,
    boundary_tail b (t ++ String "}" u)
    = option_map (fun r => r ++ String "}" u) (boundary_tail b t).
Proof.
  induction t as [|c t IH]; intros b; [reflexivity|].
  cbn [append boundary_tail]. destruct (is_space c); [apply IH|].
  now destruct (Ascii.eqb c lbrace && b).
Qed.

(** A separator that starts inside a record's text ends inside it. *)
Lemma match_boundary_inside (t u : string) :
  t <> "" ->
  match_boundary (t ++ String "}" u)
  = option_map (fun r => r ++ String "}" u) (match_boundary t).
Proof.
  destruct t as [|a [|b t]]; [congruence| |]; intros _.
  - cbn [append match_boundary]. now rewrite andb_false_r.
  - cbn [append match_boundary].
    destruct (Ascii.eqb a rbrace && Ascii.eqb b ","); [|reflexivity].
    apply boundary_tail_inside.
Qed.

Lemma has_boundary_cons (a : ascii) (t : string) :
  has_boundary (String a t) = false ->
  match_boundary (String a t) = None /\ has_boundary t = false.
Proof.
  cbn [has_boundary]. destruct (match_boundary (String a t)); [discriminate|].
  now split.
Qed.

(** The scan walks over a text without separator, up to the brace behind
    it. *)
Lemma split_skip (c u : string) :
  has_boundary c = false ->
  forall f piece,
    split_from (String.length c + f) piece (c ++ String "}" u)
    = split_from f (piece ++ c) (String "}" u).
Proof.
  induction c as [|a c IH]; intros H f piece.
  - now rewrite append_nil_r.
  - apply has_boundary_cons in H as [Hm Hc].
    cbn [String.length Nat.add split_from].
    rewrite match_boundary_inside, Hm by discriminate. cbn [option_map append].
    rewrite IH by exact Hc. now rewrite append_assoc.
Qed.

Lemma boundary_tail_gap (w rest : string) :
  all is_space w = true ->
  forall b,
    boundary_tail b (w ++ String "{" rest)
    = if b || mem LF w then Some rest else None.
Proof.
  induction w as [|c w IH]; intros Hw b.
  - cbn. now rewrite orb_false_r.
  - cbn [all] in Hw. apply andb_true_iff in Hw as [Hc Hw].
    cbn [append boundary_tail mem]. rewrite Hc, IH by exact Hw.
    now rewrite orb_assoc.
Qed.

Lemma match_boundary_gap (w rest : string) :
  is_gap w = true ->
  match_boundary ("}," ++ w ++ "{" ++ rest) = Some rest.
Proof.
  unfold is_gap. intros H. apply andb_true_iff in H as [Hs Hn].
  cbn [append match_boundary]. change (Ascii.eqb "}" rbrace) with true.
  cbn [andb Ascii.eqb Bool.eqb].
  now rewrite boundary_tail_gap, Hn.
Qed.

Lemma body_tail_length (c : string) (rest : list (string * string)) :
  String.length (body_tail c rest)
  = String.length c
    + match rest with
      | [] => 1
      | (w, next) :: rest' =>
          3 + String.length w + String.length (body_tail next rest')
      end.
Proof.
  destruct rest as [|[w next] rest']; cbn [body_tail];
    rewrite ?length_append; cbn [String.length]; rewrite ?length_append;
    cbn [String.length]; lia.
Qed.

(** The scan over the body after its first brace yields the pieces. *)
Lemma split_body_tail (rest : list (string * string)) :
  forall c piece f,
    has_boundary c = false ->
    Forall (fun wn => is_gap (fst wn) = true /\ has_boundary (snd wn) = false) rest ->
    split_from (String.length (body_tail c rest) + S f) piece (body_tail c rest)
    = pieces piece c rest.
Proof.
  induction rest as [|[w next] rest IH]; intros c piece f Hc Hrest.
  - rewrite body_tail_length. cbn [body_tail pieces].
    rewrite <- Nat.add_assoc. change (c ++ "}") with (c ++ String "}" "").
    rewrite split_skip by exact Hc.
    cbn. now rewrite append_assoc.
  - inversion Hrest as [|? ? [Hw Hn] Hrest']; subst. cbn [fst snd] in Hw, Hn.
    rewrite body_tail_length. cbn [body_tail pieces].
    rewrite <- Nat.add_assoc.
    change (c ++ "}," ++ w ++ "{" ++ body_tail next rest)
      with (c ++ String "}" ("," ++ w ++ "{" ++ body_tail next rest)).
    rewrite split_skip by exact Hc.
    replace (3 + String.length w + String.length (body_tail next rest) + S f)
      with (S (String.length (body_tail next rest) + S (f + String.length w + 2)))
      by lia.
    cbn [split_from].
    change (String "}" ("," ++ w ++ "{" ++ body_tail next rest))
      with ("}," ++ w ++ "{" ++ body_tail next rest).
    rewrite match_boundary_gap by exact Hw.
    now rewrite IH.
Qed.

Lemma split_from_next (n : nat) (piece : string) (a : ascii) (t : string) :
  match_boundary (String a t) = None ->
  split_from (S n) piece (String a t) = split_from n (piece ++ String a "") t.
Proof. intros H. cbn [split_from]. now rewrite H. Qed.

(** [re.split] on a well-formed body. *)
Lemma re_split_body (c : string) (rest : list (string * string)) :
  has_boundary c = false ->
  Forall (fun wn => is_gap (fst wn) = true /\ has_boundary (snd wn) = false) rest ->
  re_split (array_body c rest) = pieces "{" c rest.
Proof.
  intros Hc Hrest. unfold re_split, array_body.
  change ("{" ++ body_tail c rest) with (String "{" (body_tail c rest)).
  cbn [String.length]. rewrite split_from_next by now destruct (body_tail c rest).
  replace (S (String.length (body_tail c rest)))
    with (String.length (body_tail c rest) + 1) by lia.
  now apply split_body_tail.
Qed.

Lemma body_tail_ends (c : string) (rest : list (string * string)) :
  endswith "}" ("{" ++ body_tail c rest) = true.
Proof.
  revert c. induction rest as [|[w next] rest IH]; intros c; cbn [body_tail].
  - rewrite <- append_assoc. apply endswith_char_app.
  - specialize (IH next).
    replace ("{" ++ c ++ "}," ++ w ++ "{" ++ body_tail next rest)
      with (("{" ++ c ++ "}," ++ w) ++ ("{" ++ body_tail next rest))
      by now rewrite !append_assoc.
    rewrite endswith_append; [exact IH | discriminate].
Qed.

End Split.

(** ** C6: every well-formed fragment yields its record, in order *)

Section WellFormed.

Variable py_eval : string -> string + pyobj.

Lemma parsed_cons (q_str : string) (rest : list string) (r : pyobj) :
  py_eval (repair q_str) = inr r ->
  parsed py_eval (q_str :: rest) = r :: parsed py_eval rest.
Proof. intros H. unfold parsed. cbn [flat_map]. now rewrite H. Qed.

Lemma well_formed_layout (rest : list fragment) :
  Forall (fun f => is_gap (gap f) = true /\ well_formed py_eval (text f) (denotes f)) rest ->
  Forall (fun wn => is_gap (fst wn) = true /\ has_boundary (snd wn) = false)
         (layout rest).
Proof.
  unfold layout. induction 1 as [|f rest [Hg (Hb & _)] _ IH]; constructor; auto.
Qed.

(** The pieces after the first one. *)
Lemma parsed_pieces_inner (rest : list fragment) :
  forall c r,
    well_formed py_eval c r ->
    Forall (fun f => is_gap (gap f) = true /\ well_formed py_eval (text f) (denotes f)) rest ->
    parsed py_eval (pieces "" c (layout rest)) = r :: map denotes rest.
Proof.
  induction rest as [|f rest IH]; intros c r (Hb & Hs & He & Hv) Hrest.
  - cbn [layout map pieces append]. apply parsed_cons.
    rewrite repair_last by exact Hs. apply Hv. cbn. auto.
  - inversion Hrest as [|? ? [Hg Hf] Hrest']; subst.
    cbn [layout map pieces append]. fold (layout rest).
    rewrite (parsed_cons c _ r).
    + now rewrite (IH (text f) (denotes f) Hf Hrest').
    + rewrite repair_middle by assumption. apply Hv. cbn. auto.
Qed.

Lemma parsed_pieces (rest : list fragment) (c : string) (r : pyobj) :
  well_formed py_eval c r ->
  Forall (fun f => is_gap (gap f) = true /\ well_formed py_eval (text f) (denotes f)) rest ->
  parsed py_eval (pieces "{" c (layout rest)) = r :: map denotes rest.
Proof.
  intros (Hb & Hs & He & Hv) Hrest. destruct rest as [|f rest].
  - cbn [layout map pieces]. apply parsed_cons.
    rewrite repair_braced_text. apply Hv. cbn. auto.
  - inversion Hrest as [|? ? [Hg Hf] Hrest']; subst.
    cbn [layout map pieces]. fold (layout rest).
    rewrite (parsed_cons _ _ r).
    + now rewrite (parsed_pieces_inner rest (text f) (denotes f) Hf Hrest').
    + rewrite repair_first by exact He. apply Hv. cbn. auto.
Qed.

(** C6. An array body made of well-formed records, each but the last
    followed by a comma and white space with a line feed, with any white
    space around the whole: the loop returns one record for every fragment,
    in the order of the fragments, and prints nothing. *)
Theorem well_formed_body_parses_every_fragment
        (lead trail c : string) (r : pyobj) (rest : list fragment) (w : world) :
  Text.all Text.is_space lead = true ->
  Text.all Text.is_space trail = true ->
  well_formed py_eval c r ->
  Forall (fun f => is_gap (gap f) = true
                   /\ well_formed py_eval (text f) (denotes f)) rest ->
  let array_content := lead ++ array_body c (layout rest) ++ trail in
  let question_strings := re_split (Text.strip array_content) in
  let records := r :: map denotes rest in
  List.length question_strings = S (List.length rest)
  /\ parse_loop py_eval 0 question_strings [] w = (IO.Ok records, w)
  /\ List.length records = S (List.length rest).
Proof.
  intros Hl Ht Hc Hrest array_content question_strings records.
  assert (Hq : question_strings = pieces "{" c (layout rest)).
  { unfold question_strings, array_content, array_body.
    rewrite strip_padded by (assumption || apply body_tail_ends).
    apply re_split_body; [apply Hc | now apply well_formed_layout]. }
  assert (Hp : parsed py_eval question_strings = records)
    by (rewrite Hq; now apply parsed_pieces).
  assert (Hlen : List.length records = S (List.length rest))
    by (unfold records; cbn; now rewrite length_map).
  assert (Hn : forall p x l, List.length (pieces p x (layout l)) = S (List.length l)).
  { intros p x l. revert p x. induction l as [|f l IH]; intros p x; [reflexivity|].
    cbn [layout map pieces List.length]. fold (layout l). now rewrite IH. }
  assert (Hlog : forall i l, List.length (parsed py_eval l) = List.length l ->
                             parse_log py_eval i l = []).
  { intros i l. revert i. induction l as [|f l IH]; intros i; [reflexivity|].
    cbn [parse_log]. unfold parsed. cbn [flat_map].
    assert (Hle : List.length (parsed py_eval l) <= List.length l).
    { clear. induction l as [|g l IH]; [reflexivity|]. unfold parsed in *.
      cbn [flat_map]. rewrite length_app.
      destruct (py_eval (repair g)); cbn in *; lia. }
    unfold parsed in Hle. rewrite length_app.
    destruct (py_eval (repair f)); cbn [List.length Nat.add]; intros H.
    - lia.
    - apply IH. unfold parsed. lia. }
  split; [now rewrite Hq, Hn|]. split; [|exact Hlen].
  rewrite parse_loop_spec, Hp. cbn [app].
  rewrite Hlog by (rewrite Hp, Hq, Hn, Hlen; reflexivity).
  rewrite app_nil_r. now destruct w.
Qed.

End WellFormed.

(** Two records, the second laid out over several lines. *)
Lemma well_formed_body_parses_every_fragment_witness :
  let nl := String Text.LF "" in
  let c1 := "'cat': 'A', 'q': 'Q1?', 'options': ['x', 'y'], 'answer': 0, 'explain': 'E1'" in
  let c2 := nl ++ "  'cat': 'B', 'q': 'Q2?'," ++ nl
            ++ "  'options': ['m', 'n'], 'answer': [0, 1], 'explain': 'E2'" ++ nl in
  let r1 := PDict [("cat", PStr "A"); ("q", PStr "Q1?");
                   ("options", PList [PStr "x"; PStr "y"]);
                   ("answer", PInt 0); ("explain", PStr "E1")] in
  let r2 := PDict [("cat", PStr "B"); ("q", PStr "Q2?");
                   ("options", PList [PStr "m"; PStr "n"]);
                   ("answer", PList [PInt 0; PInt 1]); ("explain", PStr "E2")] in
  let w := mk_world (mk_files "" "") [] in
  parse_loop Literal.literal_eval 0
    (re_split (Text.strip
       ((nl ++ "    ")
        ++ array_body c1 (layout [mk_fragment (nl ++ "    ") c2 r2]) ++ nl)))
    [] w
  = (IO.Ok [r1; r2], w).
Proof.
  intros nl c1 c2 r1 r2 w.
  refine (proj1 (proj2 (well_formed_body_parses_every_fragment
                          Literal.literal_eval (nl ++ "    ") nl c1 r1
                          [mk_fragment (nl ++ "    ") c2 r2] w _ _ _ _))).
  - reflexivity.
  - reflexivity.
  - repeat split; try reflexivity.
    intros c' [<-|[<-|[<-|[<-|[]]]]]; vm_compute; reflexivity.
  - constructor; [|constructor]. repeat split; try reflexivity.
    intros c' [<-|[<-|[<-|[<-|[]]]]]; vm_compute; reflexivity.
Defined.

(** ** C8: reading the re-emitted line back *)

Section RoundTrip.

Import Text.

Lemma quoted_escaped_quote (t : string) :
  Js.quoted (String backslash (String quote t))
  = match Js.quoted t with
    | Some (u, r) => Some (String quote u, r)
    | None => None
    end.
Proof. reflexivity. Qed.

Lemma quoted_plain_char (c : ascii) (t : string) :
  Ascii.eqb c quote = false -> Ascii.eqb c LF = false ->
  Ascii.eqb c backslash = false ->
  Js.quoted (String c t)
  = match Js.quoted t with
    | Some (u, r) => Some (String c u, r)
    | None => None
    end.
Proof. intros Hq Hn Hb. cbn [Js.quoted]. now rewrite Hq, Hn, Hb. Qed.

(** Backslash-quote unescaping undoes the quote escaping of a plain text. *)
Lemma quoted_esc (s rest : string) :
  plain s = true ->
  Js.quoted (esc s ++ String quote rest) = Some (s, rest).
Proof.
  unfold plain, esc. induction s as [|c s IH]; intros H.
  - reflexivity.
  - cbn [mem] in H. rewrite !negb_orb in H.
    apply andb_true_iff in H as [Hb Hn].
    apply andb_true_iff in Hb as [Hcb Hb].
    apply andb_true_iff in Hn as [Hcn Hn].
    apply negb_true_iff in Hcb, Hcn.
    assert (Hs : negb (mem backslash s) && negb (mem LF s) = true)
      by now rewrite Hb, Hn.
    specialize (IH Hs). cbn [replace].
    destruct (Ascii.eqb c quote) eqn:Hq.
    + rewrite append_assoc.
      change (Json.bs quote ++ ?x) with (String backslash (String quote x)).
      rewrite quoted_escaped_quote, IH.
      apply Ascii.eqb_eq in Hq as ->. reflexivity.
    + cbn [append]. now rewrite quoted_plain_char, IH.
Qed.

Lemma json_string_escape_char (c : ascii) (t : string) :
  Js.json_string (Json.escape_char c ++ t)
  = match Js.json_string t with
    | Some (u, r) => Some (String c u, r)
    | None => None
    end.
Proof. destruct c as [[] [] [] [] [] [] [] []]; reflexivity. Qed.

(** [JSON.parse] undoes the string encoding of [json.dumps]. *)
Lemma json_string_escape (s rest : string) :
  Js.json_string (Json.escape s ++ String quote rest) = Some (s, rest).
Proof.
  induction s as [|c s IH].
  - reflexivity.
  - cbn [Json.escape]. now rewrite append_assoc, json_string_escape_char, IH.
Qed.

Lemma skip_ws_lead (lead s : string) :
  all Js.is_ws lead = true -> Js.skip_ws (lead ++ s) = Js.skip_ws s.
Proof.
  induction lead as [|c lead IH]; [reflexivity|]. cbn [all append Js.skip_ws].
  intros H. apply andb_true_iff in H as [Hc H]. now rewrite Hc, IH.
Qed.

Lemma str_int_head (z : Z) :
  exists c t, str_int z = String c t /\ numeral_char c = true.
Proof.
  pose proof (str_int_numeral z) as H.
  destruct (str_int z) as [|c t] eqn:E.
  - exfalso. pose proof (int_of_str_int z) as I. rewrite E in I.
    cbn in I. destruct (to_int_proper z). congruence.
  - cbn [all] in H. apply andb_true_iff in H as [Hc _]. eauto.
Qed.

Lemma numeral_char_cases (c : ascii) :
  numeral_char c = true ->
  opens_value c = true /\ Ascii.eqb c "[" = false /\ Ascii.eqb c quote = false
  /\ Ascii.eqb c "n" = false /\ Ascii.eqb c "t" = false /\ Ascii.eqb c "f" = false.
Proof.
  destruct c as [[] [] [] [] [] [] [] []]; cbn; intros H;
    try discriminate H; repeat split.
Qed.

Lemma dumps_head (v : pyval) :
  exists c t, Json.dumps v = String c t /\ opens_value c = true.
Proof.
  destruct v as [| [] | z | s | items]; cbn [Json.dumps Json.encode_string];
    try (do 2 eexists; split; [reflexivity | reflexivity]).
  destruct (str_int_head z) as (c & t & -> & H).
  exists c, t. split; [reflexivity|]. now apply numeral_char_cases.
Qed.

Lemma skip_ws_opens (c : ascii) (t : string) :
  opens_value c = true -> Js.skip_ws (String c t) = String c t.
Proof.
  unfold opens_value. intros H. cbn [Js.skip_ws].
  destruct (Js.is_ws c); [discriminate | reflexivity].
Qed.

Lemma join_cons (sep x : string) (xs : list string) :
  join sep (x :: xs)
  = x ++ match xs with
         | [] => ""
         | _ :: _ => sep ++ join sep xs
         end.
Proof.
  unfold join. destruct xs; cbn [String.concat]; [now rewrite append_nil_r | reflexivity].
Qed.

(** The items of a serialised list, up to the closing bracket. *)
Lemma items_dumps (items : list pyval) :
  Forall (fun v => forall fuel lead rest,
              all Js.is_ws lead = true -> delimited rest ->
              String.length (Json.dumps v) <= fuel ->
              Js.value fuel (lead ++ Json.dumps v ++ rest) = Some (v, rest)) items ->
  items <> [] ->
  forall fuel lead rest,
    all Js.is_ws lead = true ->
    String.length (join ", " (map Json.dumps items)) < fuel ->
    Js.items fuel (lead ++ join ", " (map Json.dumps items) ++ "]" ++ rest)
    = Some (items, rest).
Proof.
  induction 1 as [|x xs Hx Hxs IH]; [congruence|]. intros _ fuel lead rest Hl Hf.
  destruct fuel as [|fuel]; [lia|]. cbn [Js.items].
  destruct xs as [|y ys].
  - cbn [map] in *. rewrite join_cons, append_nil_r in *.
    rewrite Hx; [reflexivity|exact Hl|reflexivity|lia].
  - specialize (IH ltac:(discriminate) fuel " " rest eq_refl).
    cbn [map] in *. rewrite join_cons in Hf |- *.
    rewrite length_append in Hf. rewrite length_append in Hf.
    cbn [String.length] in Hf.
    rewrite !append_assoc.
    rewrite Hx; [|exact Hl|reflexivity|lia].
    change (", " ++ ?t) with (String "," (" " ++ t)).
    change (Js.skip_ws (String "," ?t)) with (String "," t).
    cbv iota. change (Ascii.eqb "," ",") with true. cbv iota.
    rewrite IH; [reflexivity|lia].
Qed.

Lemma dumps_nonempty (v : pyval) : 1 <= String.length (Json.dumps v).
Proof.
  destruct (dumps_head v) as (c & t & -> & _). cbn. lia.
Qed.

(** [JSON.parse] undoes [json.dumps]. *)
Lemma value_dumps (v : pyval) :
  forall fuel lead rest,
    all Js.is_ws lead = true -> delimited rest ->
    String.length (Json.dumps v) <= fuel ->
    Js.value fuel (lead ++ Json.dumps v ++ rest) = Some (v, rest).
Proof.
  induction v as [| b | z | s | items IH] using pyval_ind;
    intros fuel lead rest Hl Hr Hf;
    (destruct fuel as [|fuel];
     [match type of Hf with
      | String.length (Json.dumps ?v) <= _ => pose proof (dumps_nonempty v)
      end; lia|]);
    cbn [Js.value]; rewrite skip_ws_lead by exact Hl.
  - cbn [Json.dumps append]. rewrite skip_ws_opens by reflexivity.
    change (String "n" (String "u" (String "l" (String "l" rest))))
      with ("null" ++ rest).
    now rewrite prefix_append.
  - destruct b; cbn [Json.dumps append]; rewrite skip_ws_opens by reflexivity.
    + change (String "t" (String "r" (String "u" (String "e" rest))))
        with ("true" ++ rest).
      now rewrite prefix_append.
    + change (String "f" (String "a" (String "l" (String "s" (String "e" rest)))))
        with ("false" ++ rest).
      now rewrite prefix_append.
  - cbn [Json.dumps]. destruct (str_int_head z) as (c & t & E & Hc).
    destruct (numeral_char_cases c Hc) as (Ho & H1 & H2 & H3 & H4 & H5).
    rewrite E. cbn [append]. rewrite skip_ws_opens by exact Ho.
    rewrite H1, H2. cbn [prefix].
    destruct (ascii_dec "n" c) as [<-|_]; [discriminate H3|].
    destruct (ascii_dec "t" c) as [<-|_]; [discriminate H4|].
    destruct (ascii_dec "f" c) as [<-|_]; [discriminate H5|].
    change (String c (t ++ rest)) with (String c t ++ rest).
    rewrite <- E, numeral_str_int by exact Hr. reflexivity.
  - cbn [Json.dumps Json.encode_string append].
    change (Js.skip_ws (String quote ?t)) with (String quote t).
    cbv iota. change (Ascii.eqb quote "[") with false.
    change (Ascii.eqb quote quote) with true. cbv iota.
    rewrite append_assoc. cbn [append]. now rewrite json_string_escape.
  - cbn [Json.dumps append].
    change (Js.skip_ws (String "[" ?t)) with (String "[" t).
    cbv iota. change (Ascii.eqb "[" "[") with true. cbv iota.
    rewrite append_assoc.
    destruct items as [|x xs].
    + reflexivity.
    + destruct (dumps_head x) as (c & t & E & Ho).
      assert (Hj : exists u, join ", " (map Json.dumps (x :: xs)) = String c u).
      { cbn [map]. rewrite join_cons, E. cbn [append]. eauto. }
      destruct Hj as (u & Hj).
      assert (Hc : Ascii.eqb c "]" = false).
      { unfold opens_value in Ho. destruct (Ascii.eqb c "]"); [|reflexivity].
        now rewrite andb_false_r in Ho. }
      rewrite Hj at 1. cbn [append]. rewrite skip_ws_opens by exact Ho.
      rewrite Hc.
      pose proof (items_dumps (x :: xs) IH ltac:(discriminate) fuel "" rest
                    eq_refl) as Hi.
      cbn [append] in Hi. rewrite Hi; [reflexivity|].
      cbn [Json.dumps] in Hf. cbn [append String.length] in Hf.
      rewrite length_append in Hf. cbn [String.length] in Hf. lia.
Qed.

Lemma drop_append (p s : string) : drop (String.length p) (p ++ s) = s.
Proof. induction p as [|c p IH]; [now destruct s | exact IH]. Qed.

Lemma expect_append (p s : string) : Js.expect p (p ++ s) = Some s.
Proof. unfold Js.expect. now rewrite prefix_append, drop_append. Qed.

Lemma quoted_esc_dq (s rest : string) :
  plain s = true -> Js.quoted (esc s ++ dq ++ rest) = Some (s, rest).
Proof. exact (quoted_esc s rest). Qed.

Lemma json_dumps (v : pyval) (rest : string) :
  delimited rest -> Js.json (Json.dumps v ++ rest) = Some (v, rest).
Proof.
  intros Hr. unfold Js.json.
  apply (value_dumps v _ "" rest eq_refl Hr).
  rewrite length_append. lia.
Qed.

Lemma answer_field_answer_str (answer : pyval) (rest : string) :
  (exists z, answer = PInt z) \/ (exists items, answer = PList items) ->
  delimited rest ->
  Js.answer_field (answer_str answer ++ rest) = Some (answer, rest).
Proof.
  intros [(z & ->)|(items & ->)] Hr; unfold Js.answer_field;
    cbn [answer_str].
  - destruct (str_int_head z) as (c & t & E & Hc).
    destruct (numeral_char_cases c Hc) as (_ & H1 & _).
    rewrite E at 1. cbn [append prefix].
    destruct (ascii_dec "[" c) as [<-|_]; [discriminate H1|].
    now rewrite numeral_str_int.
  - cbn [Json.dumps]. rewrite append_assoc, prefix_append.
    rewrite <- append_assoc. now apply (json_dumps (PList items)).
Qed.

(** The template read back. *)
Lemma parse_template (cat question explain : string) (options answer : pyval) :
  plain cat = true -> plain question = true -> plain explain = true ->
  (exists z, answer = PInt z) \/ (exists items, answer = PList items) ->
  Js.parse (js_template (esc cat) (esc question) (Json.dumps options)
                        (answer_str answer) (esc explain))
  = Some (Js.mk_question cat question options answer explain).
Proof.
  intros Hc Hq He Ha. unfold js_template, Js.parse.
  rewrite <- (append_assoc "      { cat: " dq), expect_append. cbn [Js.bind].
  rewrite quoted_esc_dq by exact Hc. cbn [Js.bind].
  rewrite <- (append_assoc ", q: " dq), expect_append. cbn [Js.bind].
  rewrite quoted_esc_dq by exact Hq. cbn [Js.bind].
  rewrite expect_append. cbn [Js.bind].
  rewrite json_dumps by reflexivity. cbn [Js.bind].
  rewrite expect_append. cbn [Js.bind].
  rewrite answer_field_answer_str by (exact Ha || reflexivity). cbn [Js.bind].
  rewrite <- (append_assoc ", explain: " dq), expect_append. cbn [Js.bind].
  rewrite quoted_esc_dq by exact He. cbn [Js.bind].
  reflexivity.
Qed.

End RoundTrip.

(** C8. A record with text in [cat], [q] and [explain] that holds no
    backslash and no line feed, any serialisable [options] and an integer or
    a list as [answer] is re-emitted, and the line read back under the rules of
    the destination format (backslash-quote unescaping in the three quoted
    fields, JSON for [options] and a list-valued [answer], a bare numeral
    otherwise) gives the same five values.  Nothing is asked of the texts among
    the options: [json.dumps] escapes them in full. *)
Theorem reemitted_record_reparses
        (entries : list (string * pyval))
        (cat question explain : string) (options answer : pyval) :
  lookup "cat" entries = Some (PStr cat) ->
  lookup "q" entries = Some (PStr question) ->
  lookup "options" entries = Some options ->
  lookup "answer" entries = Some answer ->
  lookup "explain" entries = Some (PStr explain) ->
  plain cat = true -> plain question = true -> plain explain = true ->
  (exists z, answer = PInt z) \/ (exists items, answer = PList items) ->
  exists line,
    js_q (PDict entries) = inr line
    /\ Js.parse line = Some (Js.mk_question cat question options answer explain).
Proof.
  intros Lc Lq Lo La Le Hc Hq He Ha.
  exists (js_template (esc cat) (esc question) (Json.dumps options)
                      (answer_str answer) (esc explain)).
  split.
  - apply js_q_inr. exists entries, answer, cat, question, explain, options.
    now repeat split.
  - now apply parse_template.
Qed.

Lemma reemitted_record_reparses_witness :
  let said := "Which is " ++ dq ++ "best" ++ dq ++ "?" in
  let entries := [("cat", PStr "B"); ("q", PStr said);
                  ("options", PList [PStr ("m" ++ String Text.LF "\ n"); PStr "n"]);
                  ("answer", PList [PInt 0; PInt 1]); ("explain", PStr "E2")] in
  exists line,
    js_q (PDict entries) = inr line
    /\ Js.parse line
       = Some (Js.mk_question "B" said
                 (PList [PStr ("m" ++ String Text.LF "\ n"); PStr "n"])
                 (PList [PInt 0; PInt 1]) "E2").
Proof.
  intros said entries.
  apply (reemitted_record_reparses entries); try reflexivity.
  right. eexists. reflexivity.
Defined.


(** ** The separator and the scan, in general *)

Section Separator.

Import Text.

Lemma boundary_tail_some (s rest : string) :
  forall b,
    boundary_tail b s = Some rest ->
    exists w, all is_space w = true /\ s = w ++ String "{" rest
              /\ b || mem LF w = true.
Proof.
  induction s as [|c s IH]; intros b H; [discriminate|].
  cbn [boundary_tail] in H. destruct (is_space c) eqn:Hc.
  - destruct (IH _ H) as (w & Hw & -> & Hn).
    exists (String c w). cbn [all mem append]. rewrite Hc, Hw.
    repeat split. now rewrite orb_assoc.
  - destruct (Ascii.eqb_spec c lbrace) as [->|]; [|discriminate].
    destruct b; [|discriminate]. injection H as <-.
    exists "". now repeat split.
Qed.

Lemma mem_split (c : ascii) (w : string) :
  mem c w = true -> exists w1 w2, w = w1 ++ String c w2.
Proof.
  induction w as [|a w IH]; [discriminate|]. cbn [mem].
  destruct (Ascii.eqb_spec a c) as [->|_].
  - intros _. now exists "", w.
  - intros H. destruct (IH H) as (w1 & w2 & ->). now exists (String a w1), w2.
Qed.

(** [match_boundary] is the pattern [\},\s*\n\s*\{] at the head of the
    text: a closing brace, a comma, white space, a line feed, white space and
    an opening brace, with what follows them. *)
Lemma match_boundary_iff (s rest : string) :
  match_boundary s = Some rest
  <-> exists w1 w2,
      all is_space w1 = true /\ all is_space w2 = true
      /\ s = "}," ++ w1 ++ String LF (w2 ++ String "{" rest).
Proof.
  split.
  - destruct s as [|a [|b s]]; try discriminate. cbn [match_boundary].
    destruct (Ascii.eqb_spec a rbrace) as [->|]; [|discriminate].
    destruct (Ascii.eqb_spec b ",") as [->|]; [|discriminate].
    cbn [andb]. intros H.
    apply boundary_tail_some in H as (w & Hw & -> & Hn). cbn [orb] in Hn.
    destruct (mem_split _ _ Hn) as (w1 & w2 & ->).
    rewrite all_append in Hw. cbn [all] in Hw.
    apply andb_true_iff in Hw as [H1 H2]. apply andb_true_iff in H2 as [_ H2].
    exists w1, w2. repeat split; try assumption.
    now rewrite append_assoc.
  - intros (w1 & w2 & H1 & H2 & ->).
    replace (w1 ++ String LF (w2 ++ String "{" rest))
      with ((w1 ++ String LF w2) ++ "{" ++ rest)
      by now rewrite append_assoc.
    apply match_boundary_gap. unfold is_gap.
    rewrite all_append, mem_append. cbn [all mem]. rewrite H1, H2.
    rewrite Ascii.eqb_refl. cbn. now rewrite orb_true_r.
Qed.

Lemma boundary_tail_shorter (s rest : string) :
  forall b, boundary_tail b s = Some rest -> String.length rest < String.length s.
Proof.
  induction s as [|c s IH]; intros b H; [discriminate|].
  cbn [boundary_tail] in H. cbn [String.length].
  destruct (is_space c).
  - apply IH in H. lia.
  - destruct (Ascii.eqb c lbrace && b); [|discriminate]. injection H as <-. lia.
Qed.

Lemma match_boundary_shorter (s rest : string) :
  match_boundary s = Some rest -> String.length rest < String.length s.
Proof.
  destruct s as [|a [|b s]]; try discriminate. cbn [match_boundary].
  destruct (Ascii.eqb a rbrace && Ascii.eqb b ","); [|discriminate].
  intros H. apply boundary_tail_shorter in H. cbn [String.length]. lia.
Qed.

(** The scan never runs out of fuel: more fuel than the length of the text
    changes nothing. *)
Lemma split_from_fuel (n : nat) :
  forall s piece f1 f2,
    String.length s <= n -> String.length s < f1 -> String.length s < f2 ->
    split_from f1 piece s = split_from f2 piece s.
Proof.
  induction n as [|n IH]; intros s piece f1 f2 Hn H1 H2;
    (destruct f1 as [|f1]; [lia|]); (destruct f2 as [|f2]; [lia|]);
    cbn [split_from].
  - destruct s; [|cbn in Hn; lia]. reflexivity.
  - destruct (match_boundary s) as [rest|] eqn:E.
    + apply match_boundary_shorter in E. f_equal. apply IH; lia.
    + destruct s as [|c s]; [reflexivity|]. cbn [String.length] in *.
      apply IH; lia.
Qed.

Lemma re_split_fuel (s : string) (fuel : nat) :
  String.length s < fuel -> re_split s = split_from fuel "" s.
Proof.
  intros H. unfold re_split. apply (split_from_fuel (String.length s)); lia.
Qed.

(** The pieces, joined by the separators that were cut out, are never
    empty as a list: [re.split] returns at least one piece. *)
Lemma re_split_nonempty (s : string) : re_split s <> [].
Proof.
  unfold re_split. generalize (S (String.length s)) as fuel.
  generalize "" as piece. revert s.
  intros s piece fuel. revert s piece.
  induction fuel as [|fuel IH]; intros s piece; cbn [split_from]; [discriminate|].
  destruct (match_boundary s); [discriminate|].
  destruct s; [discriminate | apply IH].
Qed.

End Separator.

(** ** Off the line boundary

    What the amended C3 and C9 leave out: a destination of 773 lines or fewer
    whose last line has no line feed. *)

Section Unterminated.

Lemma readlines_unterminated (s : string) :
  terminated s = false ->
  exists init last,
    readlines s = (init ++ [last])%list
    /\ Forall is_line init
    /\ last <> "" /\ Text.mem Text.LF last = false.
Proof.
  induction s as [|c s IH]; [discriminate|]. intros Ht.
  rewrite readlines_cons. destruct s as [|d s].
  - unfold terminated in Ht. rewrite endswith_cons_char in Ht.
    cbn [Text.is_empty orb] in Ht. rewrite Ht.
    exists [], (String c ""). cbn [Text.mem]. rewrite Ht.
    repeat split; [constructor | discriminate].
  - rewrite terminated_cons in Ht by discriminate.
    destruct (IH Ht) as (init & last & E & Hi & Hl & Hm). rewrite E.
    destruct (Ascii.eqb_spec c Text.LF) as [->|Hc].
    + exists (String Text.LF "" :: init), last.
      repeat split; try assumption. constructor; [now exists ""|exact Hi].
    + destruct init as [|l init]; cbn [app].
      * exists [], (String c last).
        repeat split; [constructor | discriminate | now apply mem_cons_false].
      * inversion Hi as [|? ? (b & -> & Hb) Hi']; subst.
        exists (String c (b ++ String Text.LF "") :: init), last.
        repeat split; try assumption. constructor; [|exact Hi'].
        exists (String c b). split; [reflexivity | now apply mem_cons_false].
Qed.

(** The first record of the block is glued to the last line: with N >= 1
    records the file has N - 1 lines more, and its old last line is gone. *)
Lemma unterminated_destination_joins_block (js : list string) (html : string) :
  List.length (readlines html) <= insert_line ->
  terminated html = false ->
  js <> [] ->
  Forall (fun j => Text.mem Text.LF j = false) js ->
  exists init last,
    readlines html = (init ++ [last])%list
    /\ readlines (splice js html)
       = (init ++ (last ++ hd "" (block_lines js))%string
                  :: tl (block_lines js))%list
    /\ S (List.length (readlines (splice js html)))
       = List.length (readlines html) + List.length js.
Proof.
  intros Hn Ht Hjs Hlf.
  destruct (readlines_unterminated html Ht) as (init & last & E & Hi & Hl & Hm).
  exists init, last. split; [exact E|].
  assert (Hs : splice js html = writelines init ++ last ++ new_questions_text js).
  { unfold splice. rewrite list_insert_past_end by exact Hn.
    rewrite writelines_app, E, writelines_app, !writelines_cons.
    cbn [writelines String.concat]. now rewrite !append_nil_r, append_assoc. }
  assert (Hr : readlines (splice js html)
               = (init ++ (last ++ hd "" (block_lines js))%string
                          :: tl (block_lines js))%list).
  { rewrite Hs, readlines_lines by exact Hi. f_equal.
    rewrite new_questions_text_lines by exact Hjs.
    destruct js as [|j js]; [congruence|]. inversion Hlf as [|? ? Hj Hjs']; subst.
    cbn [block_lines map hd tl]. rewrite writelines_cons.
    fold (block_lines js).
    replace (last ++ (j ++ "," ++ String Text.LF "") ++ writelines (block_lines js))
      with ((last ++ j ++ ",") ++ String Text.LF (writelines (block_lines js)))
      by now rewrite !append_assoc.
    rewrite readlines_line by now rewrite !mem_append, Hm, Hj.
    rewrite <- (append_nil_r (writelines (block_lines js))).
    rewrite readlines_lines by now apply block_lines_complete.
    rewrite app_nil_r. now rewrite !append_assoc. }
  split; [exact Hr|]. rewrite Hr, E, !length_app.
  destruct js as [|j js]; [congruence|].
  cbn [block_lines map tl List.length]. rewrite length_map. lia.
Qed.

End Unterminated.

(** ** The end-to-end scenario

    Two records into a page of 776 lines: the two lines of the block stand at
    indices 773 and 774, the first with [answer: 0] and the second with
    [answer: [0, 1]]. *)
Lemma end_to_end_scenario :
  let d := mk_files Scenario.two_records (Scenario.page 776) in
  let new := readlines (dest_text (disk (snd (run Literal.literal_eval d)))) in
  fst (run Literal.literal_eval d) = Completed
  /\ List.length new = 778
  /\ nth_error new 773
     = Some ("      { cat: " ++ dq ++ "A" ++ dq ++ ", q: " ++ dq ++ "Q1?" ++ dq
             ++ ", options: [" ++ dq ++ "x" ++ dq ++ ", " ++ dq ++ "y" ++ dq
             ++ "], answer: 0, explain: " ++ dq ++ "E1" ++ dq ++ " },"
             ++ String Text.LF "")
  /\ nth_error new 774
     = Some ("      { cat: " ++ dq ++ "B" ++ dq ++ ", q: " ++ dq ++ "Q2?" ++ dq
             ++ ", options: [" ++ dq ++ "m" ++ dq ++ ", " ++ dq ++ "n" ++ dq
             ++ "], answer: [0, 1], explain: " ++ dq ++ "E2" ++ dq ++ " },"
             ++ String Text.LF "")
  /\ nth_error new 775 = nth_error (readlines (dest_text d)) 773.
Proof. vm_compute. repeat split. Qed.

(** * Further properties *)

(** ** The extractor *)

(** X1. The run leaves through [exit(1)] exactly when the text of
    [add_questions.py] holds no [array_open] (the name, the equals sign and
    the opening bracket) that is followed, somewhere behind it, by
    [array_close] (a line feed and a closing bracket). *)
Theorem run_exits_iff_no_array_in_the_text
        (py_eval : string -> string + pyobj) (d : files) :
  fst (run py_eval d) = SysExit 1
  <-> forall pre body post,
      source_text d <> pre ++ array_open ++ body ++ array_close ++ post.
Proof.
  rewrite <- extract_none_iff.
  destruct (extract (source_text d)) as [body|] eqn:Hx.
  - pose proof (run_found py_eval d body Hx) as R. cbv zeta in R.
    destruct (js_questions (parsed py_eval (re_split (Text.strip body))));
      rewrite R; split; discriminate.
  - rewrite (run_not_found py_eval d Hx). now split.
Qed.

(** X2. What the search captures stands right behind the first occurrence
    of the opening literal in the text, is followed by a line feed and a
    closing bracket, and holds no line feed followed by a closing bracket
    itself: the match is the leftmost one and its group the shortest. *)
Theorem extract_first_array_shortest_body (content body : string) :
  extract content = Some body ->
  exists pre post,
    content = pre ++ array_open ++ body ++ array_close ++ post
    /\ (forall a b, content = a ++ array_open ++ b ->
                    String.length pre <= String.length a)
    /\ (forall a b, body <> a ++ array_close ++ b).
Proof.
  unfold extract.
  destruct (Text.find array_open content) as [[pre rest]|] eqn:F; [|discriminate].
  destruct (Text.find array_close rest) as [[b post]|] eqn:G; [|discriminate].
  intros [= <-]. exists pre, post.
  pose proof (find_leftmost _ _ _ _ F) as Lf.
  pose proof (find_leftmost _ _ _ _ G) as Lg.
  apply find_some in F, G. split; [now rewrite F, G|]. split; [exact Lf|].
  intros x y E. subst b.
  specialize (Lg x (y ++ array_close ++ post)).
  rewrite G, !append_assoc in Lg. specialize (Lg eq_refl).
  rewrite !length_append in Lg. cbn in Lg. lia.
Qed.

Lemma extract_first_array_shortest_body_witness :
  exists pre post,
    Scenario.one_record
    = pre ++ array_open
      ++ (String Text.LF
            "    {'cat': 'A', 'q': 'Q1?', 'options': ['x', 'y'], 'answer': 0, 'explain': 'E1'}")
      ++ array_close ++ post.
Proof.
  destruct (extract_first_array_shortest_body Scenario.one_record
              (String Text.LF
                 "    {'cat': 'A', 'q': 'Q1?', 'options': ['x', 'y'], 'answer': 0, 'explain': 'E1'}")
              eq_refl)
    as (pre & post & H & _).
  exists pre, post. exact H.
Defined.

(** ** The repair step *)

(** X3. Whatever the fragment, the repaired text starts with an opening
    brace and ends with a closing brace; it is never shorter than the two
    braces. *)
Theorem repair_always_braced (s : string) :
  Text.startswith "{" (repair s) = true
  /\ Text.endswith "}" (repair s) = true
  /\ 2 <= String.length (repair s).
Proof.
  destruct (repair_braced s) as (t & Ht & He). rewrite Ht in *.
  split; [now rewrite startswith_char|]. split; [exact He|].
  destruct t as [|c t]; [discriminate He | cbn; lia].
Qed.

(** X4. White space around a fragment does not count: the fragment with
    white space put before and behind it is repaired to the same text. *)
Theorem repair_ignores_padding (lead trail s : string) :
  Text.all Text.is_space lead = true ->
  Text.all Text.is_space trail = true ->
  repair (lead ++ s ++ trail) = repair s.
Proof.
  intros Hl Ht.
  assert (E : Text.strip (lead ++ s ++ trail) = Text.strip s).
  { unfold Text.strip. rewrite <- append_assoc, rstrip_trail by exact Ht.
    now rewrite !lstrip_rstrip, lstrip_lead. }
  now rewrite !repair_unfold, E.
Qed.

Lemma repair_ignores_padding_witness :
  repair (String Text.LF "    " ++ "'cat': 'A'" ++ String Text.LF "  ")
  = "{'cat': 'A'}".
Proof.
  rewrite (repair_ignores_padding (String Text.LF "    ") (String Text.LF "  ")
             "'cat': 'A'" eq_refl eq_refl).
  reflexivity.
Defined.

(** ** The split *)

Section SplitFacts.

Import Text.

Lemma match_boundary_needs_lf (s : string) :
  mem LF s = false -> match_boundary s = None.
Proof.
  intros H. destruct (match_boundary s) as [rest|] eqn:E; [|reflexivity].
  apply match_boundary_iff in E as (w1 & w2 & _ & _ & ->).
  rewrite !mem_append in H. cbn [mem] in H. rewrite Ascii.eqb_refl in H.
  cbn in H. now rewrite !orb_true_r in H.
Qed.

Lemma split_from_no_boundary (s : string) :
  has_boundary s = false ->
  forall fuel piece,
    String.length s < fuel -> split_from fuel piece s = [piece ++ s].
Proof.
  induction s as [|c s IH]; intros H fuel piece Hf;
    (destruct fuel as [|fuel]; [cbn in Hf; lia|]).
  - cbn. now rewrite append_nil_r.
  - apply has_boundary_cons in H as [Hm Hs]. cbn [split_from]. rewrite Hm.
    rewrite IH by (assumption || (cbn in Hf; lia)). now rewrite append_assoc.
Qed.

Lemma no_lf_no_boundary (s : string) :
  mem LF s = false -> has_boundary s = false.
Proof.
  induction s as [|c s IH]; intros H; [reflexivity|].
  cbn [has_boundary]. rewrite match_boundary_needs_lf by exact H.
  apply IH. cbn [mem] in H. now apply orb_false_iff in H.
Qed.

Lemma separator_cut (s rest : string) :
  match_boundary s = Some rest ->
  exists sep, s = sep ++ rest /\ is_separator sep = true.
Proof.
  intros H. apply match_boundary_iff in H as (w1 & w2 & H1 & H2 & ->).
  exists ("}," ++ w1 ++ String LF (w2 ++ String "{" "")). split.
  - cbn [append]. rewrite append_assoc. cbn [append].
    now rewrite append_assoc.
  - unfold is_separator.
    assert (E : match_boundary ("}," ++ w1 ++ String LF (w2 ++ String "{" ""))
                = Some "") by (apply match_boundary_iff; eauto).
    now rewrite E.
Qed.

Lemma split_from_weave (fuel : nat) :
  forall s piece,
    String.length s < fuel ->
    exists seps,
      List.length (split_from fuel piece s) = S (List.length seps)
      /\ forallb is_separator seps = true
      /\ weave (split_from fuel piece s) seps = piece ++ s.
Proof.
  induction fuel as [|fuel IH]; intros s piece Hf; [lia|].
  cbn [split_from]. destruct (match_boundary s) as [rest|] eqn:E.
  - pose proof (match_boundary_shorter _ _ E) as Hr.
    destruct (separator_cut _ _ E) as (sep & -> & Hsep).
    destruct (IH rest "" ltac:(lia)) as (seps & Hn & Hs & Hw).
    exists (sep :: seps). cbn [List.length forallb]. rewrite Hn, Hsep, Hs.
    repeat split.
    destruct (split_from fuel "" rest) as [|p ps] eqn:Ep; [discriminate Hn|].
    cbn [weave]. cbn [weave] in Hw.
    change (weave (p :: ps) seps) with
      (match seps with
       | [] => p
       | sep' :: seps' => p ++ sep' ++ weave ps seps'
       end) in Hw.
    destruct seps as [|sep' seps']; cbn [weave]; now rewrite Hw.
  - destruct s as [|c s].
    + exists []. cbn. now rewrite append_nil_r.
    + destruct (IH s (piece ++ String c "") ltac:(cbn in Hf; lia))
        as (seps & Hn & Hs & Hw).
      exists seps. rewrite Hw, append_assoc. now repeat split.
Qed.

End SplitFacts.

(** X5. A text without a line feed is not split: it is the one fragment,
    whatever braces and commas it holds. *)
Theorem body_without_line_feed_is_one_fragment (s : string) :
  Text.mem Text.LF s = false -> re_split s = [s].
Proof.
  intros H. unfold re_split.
  rewrite split_from_no_boundary; [reflexivity | now apply no_lf_no_boundary | lia].
Qed.

Lemma body_without_line_feed_is_one_fragment_witness :
  re_split "{'cat': 'A'}, {'cat': 'B'}" = ["{'cat': 'A'}, {'cat': 'B'}"].
Proof.
  apply (body_without_line_feed_is_one_fragment "{'cat': 'A'}, {'cat': 'B'}").
  reflexivity.
Defined.

(** X6. The split loses nothing but separators: there is one piece more
    than there are separators cut out, each of them a closing brace, a comma,
    white space with a line feed and an opening brace, and the pieces with
    the separators between them are the text that was split. *)
Theorem split_pieces_and_separators_make_the_text (s : string) :
  exists seps,
    List.length (re_split s) = S (List.length seps)
    /\ forallb is_separator seps = true
    /\ weave (re_split s) seps = s.
Proof.
  unfold re_split.
  destruct (split_from_weave (S (String.length s)) s "" ltac:(lia))
    as (seps & H). now exists seps.
Qed.

Section PiecesFacts.

Import Text.

Lemma boundary_tail_extend (t s r : string) :
  forall b, boundary_tail b t = Some r -> boundary_tail b (t ++ s) = Some (r ++ s).
Proof.
  induction t as [|c t IH]; intros b H; [discriminate|].
  cbn [append boundary_tail] in *. destruct (is_space c); [now apply IH|].
  destruct (Ascii.eqb c lbrace && b); [|discriminate]. now injection H as <-.
Qed.

Lemma match_boundary_extend (t s r : string) :
  match_boundary t = Some r -> match_boundary (t ++ s) = Some (r ++ s).
Proof.
  destruct t as [|a [|b t]]; try discriminate. cbn [append match_boundary].
  destruct (Ascii.eqb a rbrace && Ascii.eqb b ","); [|discriminate].
  apply boundary_tail_extend.
Qed.

Lemma no_boundary_suffixes (p : string) :
  (forall u t, p = u ++ t -> match_boundary t = None) -> has_boundary p = false.
Proof.
  induction p as [|c p IH]; intros H.
  - reflexivity.
  - cbn [has_boundary]. rewrite (H "" (String c p) eq_refl).
    apply IH. intros u t ->. now apply (H (String c u) t).
Qed.

Lemma append_last_cut (piece u t : string) (c : ascii) :
  piece ++ String c "" = u ++ t -> t <> "" ->
  exists t0, t = t0 ++ String c "" /\ piece = u ++ t0.
Proof.
  revert piece. induction u as [|x u IH]; intros piece E Ht.
  - exists piece. now split.
  - destruct piece as [|y piece].
    + injection E as -> E. destruct u; [|discriminate]. cbn in E. congruence.
    + injection E as -> E. destruct (IH piece E Ht) as (t0 & -> & ->).
      now exists t0.
Qed.

Lemma split_from_pieces_clean (fuel : nat) :
  forall s piece,
    String.length s < fuel ->
    (forall u t, piece = u ++ t -> t <> "" -> match_boundary (t ++ s) = None) ->
    Forall (fun p => has_boundary p = false) (split_from fuel piece s).
Proof.
  induction fuel as [|fuel IH]; intros s piece Hf Hopen; [lia|].
  assert (Hclean : has_boundary piece = false).
  { apply no_boundary_suffixes. intros u t E.
    destruct t as [|c t]; [reflexivity|].
    destruct (match_boundary (String c t)) as [r|] eqn:M; [|reflexivity].
    apply (match_boundary_extend _ s) in M.
    rewrite (Hopen u (String c t) E) in M by discriminate. discriminate. }
  cbn [split_from]. destruct (match_boundary s) as [rest|] eqn:E.
  - constructor; [exact Hclean|]. apply IH.
    + apply match_boundary_shorter in E. lia.
    + intros u t Hu Ht. destruct u; destruct t; try discriminate. congruence.
  - destruct s as [|c s]; [now constructor|].
    apply IH; [cbn in Hf; lia|]. intros u t Hu Ht.
    destruct (append_last_cut _ _ _ _ Hu Ht) as (t0 & -> & ->).
    rewrite append_assoc. cbn [append].
    destruct t0 as [|d t0]; [exact E|]. apply (Hopen u); [reflexivity|discriminate].
Qed.

End PiecesFacts.

(** X7. No fragment holds a separator: the split cuts at every place where
    a closing brace, a comma, white space with a line feed and an opening brace
    stand together. *)
Theorem split_leaves_no_separator (s : string) :
  Forall (fun piece => has_boundary piece = false) (re_split s).
Proof.
  unfold re_split. apply split_from_pieces_clean; [lia|].
  intros u t E Ht. destruct u; destruct t; try discriminate. congruence.
Qed.

(** ** The parse loop *)

Lemma parse_accounts (py_eval : string -> string + pyobj)
      (question_strings : list string) :
  forall i,
    2 * List.length (parsed py_eval question_strings)
    + List.length (parse_log py_eval i question_strings)
    = 2 * List.length question_strings.
Proof.
  induction question_strings as [|f rest IH]; intros i; [reflexivity|].
  unfold parsed in *. cbn [flat_map parse_log]. rewrite length_app.
  specialize (IH (S i)). destruct (py_eval (repair f)); cbn [List.length]; lia.
Qed.

(** X8. The loop accounts for every fragment: each one adds a record to the
    sequence or two lines to the output, never both and never neither; the loop
    does not end the run and changes no file. *)
Theorem parse_loop_accounts_for_every_fragment
        (py_eval : string -> string + pyobj) (i : nat)
        (question_strings : list string) (questions : list pyobj) (w : world) :
  exists questions' w',
    parse_loop py_eval i question_strings questions w = (IO.Ok questions', w')
    /\ disk w' = disk w
    /\ 2 * List.length questions' + List.length (trace w')
       = 2 * List.length questions + List.length (trace w)
         + 2 * List.length question_strings.
Proof.
  rewrite parse_loop_spec. do 2 eexists. split; [reflexivity|].
  split; [reflexivity|]. cbn [trace]. rewrite !length_app.
  pose proof (parse_accounts py_eval question_strings i). lia.
Qed.

(** ** How a run ends *)



Lemma parse_trace_events (py_eval : string -> string + pyobj) (body : string)
      (ev : event) :
  In ev (parse_trace py_eval body) ->
  ev = OpenRead add_questions_py \/ exists line, ev = Print line.
Proof.
  unfold parse_trace. intros H. apply in_app_or in H as [[H|H]|[H|[]]].
  - now left.
  - right. revert H. generalize 0.
    induction (re_split (Text.strip body)) as [|f rest IH]; intros i H;
      [destruct H|].
    cbn [parse_log] in H. destruct (py_eval (repair f)).
    + destruct H as [<-|[<-|H]]; eauto.
    + eauto.
  - right. eauto.
Qed.

(** X11. A run never writes [add_questions.py], and it writes the
    destination only as its last step before the closing messages: a run that
    does not complete leaves both files as they were and has not opened the
    destination at all. *)
Theorem run_writes_destination_only_on_success
        (py_eval : string -> string + pyobj) (d : files) :
  let w := snd (run py_eval d) in
  source_text (disk w) = source_text d
  /\ ~ In (OpenWrite add_questions_py) (trace w)
  /\ (fst (run py_eval d) = Completed
      \/ (disk w = d
          /\ ~ In (OpenRead awsprepai_multicert_html) (trace w)
          /\ ~ In (OpenWrite awsprepai_multicert_html) (trace w))).
Proof.
  intros w. unfold w.
  assert (Hp : forall body ev, In ev (parse_trace py_eval body) ->
                               forall p, ev <> OpenWrite p
                                         /\ ev <> OpenRead awsprepai_multicert_html).
  { intros body ev H p. apply parse_trace_events in H as [->|(line & ->)];
      split; discriminate. }
  destruct (extract (source_text d)) as [body|] eqn:Hx.
  - pose proof (run_found py_eval d body Hx) as R. cbv zeta in R.
    destruct (js_questions (parsed py_eval (re_split (Text.strip body))))
      as [e|js]; rewrite R; cbn [fst snd disk trace source_text].
    + split; [reflexivity|]. split.
      * intros H. now destruct (Hp _ _ H add_questions_py).
      * right. split; [reflexivity|]. split; intros H.
        -- now destruct (Hp _ _ H add_questions_py).
        -- now destruct (Hp _ _ H awsprepai_multicert_html).
    + split; [reflexivity|]. split; [|now left].
      intros H. apply in_app_or in H as [H|H].
      * now destruct (Hp _ _ H add_questions_py).
      * cbn in H. repeat destruct H as [H|H]; try discriminate H; exact H.
  - rewrite (run_not_found py_eval d Hx). cbn [fst snd disk trace].
    split; [reflexivity|]. split.
    + intros [H|[H|[]]]; discriminate.
    + right. split; [reflexivity|]. split; intros [H|[H|[]]]; discriminate.
Qed.

(** X12. The records are re-emitted in order and the first one that is not
    valid ends the run with its exception, whatever comes behind it: the count
    of parsed records has been printed, the destination is untouched. *)
Theorem first_invalid_record_ends_the_run
        (py_eval : string -> string + pyobj) (d : files) (body : string)
        (good : list pyobj) (q : pyobj) (rest : list pyobj) (e : exn) :
  extract (source_text d) = Some body ->
  parsed py_eval (re_split (Text.strip body)) = (good ++ q :: rest)%list ->
  Forall (fun g => valid_record g = true) good ->
  js_q q = inl e ->
  run py_eval d = (Uncaught e, mk_world d (parse_trace py_eval body))
  /\ last (parse_trace py_eval body) (Print "")
     = Print ("Parsed " ++ str_nat (List.length (good ++ q :: rest))
              ++ " questions from Test #5").
Proof.
  intros Hx Hp Hg Hq. pose proof (run_found py_eval d body Hx) as R.
  cbv zeta in R. rewrite Hp in R.
  assert (E : js_questions (good ++ q :: rest) = inl e).
  { clear R Hp. induction Hg as [|g good Hv _ IH]; cbn [app js_questions].
    - now rewrite Hq.
    - apply valid_record_iff in Hv as (line & ->). cbn [bind_exn].
      now rewrite IH. }
  rewrite E in R. split; [exact R|].
  unfold parse_trace. rewrite Hp. now rewrite last_last.
Qed.

Lemma first_invalid_record_ends_the_run_witness :
  let source := "test5_questions = [
    {'cat': 'A', 'q': 'Q1?', 'options': ['x', 'y'], 'answer': 0, 'explain': 'E1'},
    {'cat': 'B', 'q': 'Q2?', 'options': ['m', 'n'], 'explain': 'E2'}
]
" in
  let d := mk_files source (Scenario.page 3) in
  fst (run Literal.literal_eval d) = Uncaught (KeyError "answer")
  /\ disk (snd (run Literal.literal_eval d)) = d.
Proof.
  intros source d.
  destruct (first_invalid_record_ends_the_run Literal.literal_eval d
              (match extract source with Some b => b | None => "" end)
              [PDict [("cat", PStr "A"); ("q", PStr "Q1?");
                      ("options", PList [PStr "x"; PStr "y"]);
                      ("answer", PInt 0); ("explain", PStr "E1")]]
              (PDict [("cat", PStr "B"); ("q", PStr "Q2?");
                      ("options", PList [PStr "m"; PStr "n"]);
                      ("explain", PStr "E2")])
              [] (KeyError "answer"))
    as [H _].
  - vm_compute. reflexivity.
  - vm_compute. reflexivity.
  - repeat constructor.
  - reflexivity.
  - rewrite H. split; reflexivity.
Defined.

(** ** The splice *)

Lemma writelines_complete (ls : list string) :
  Forall is_line ls -> terminated (writelines ls) = true.
Proof.
  induction 1 as [|l ls (b & -> & _) _ IH]; [reflexivity|].
  rewrite writelines_cons. unfold terminated in *.
  destruct (writelines ls) as [|c t] eqn:E.
  - rewrite append_nil_r, endswith_char_app. apply orb_true_r.
  - cbn [Text.is_empty orb] in IH. rewrite endswith_append by discriminate.
    rewrite IH. apply orb_true_r.
Qed.

(** X14. The splice alters no character of the text that was read: it cuts
    the text in two, at the end of a line or else at the end of the text, and
    puts the block in between. *)
Theorem splice_cuts_the_text_once (js : list string) (html : string) :
  exists a b,
    html = a ++ b
    /\ splice js html = a ++ new_questions_text js ++ b
    /\ (terminated a = true \/ b = "").
Proof.
  exists (writelines (firstn insert_line (readlines html))),
         (writelines (skipn insert_line (readlines html))).
  split; [|split].
  - now rewrite <- writelines_app, firstn_skipn, writelines_readlines.
  - apply splice_text.
  - destruct (Nat.lt_ge_cases insert_line (List.length (readlines html)))
      as [Hlt|Hge].
    + left. apply writelines_complete, firstn_complete. now left.
    + right. now rewrite skipn_all2.
Qed.

Lemma splice_twice (js js' : list string) (html : string) :
  insert_line < List.length (readlines html) ->
  splice js' (splice js html)
  = writelines (firstn insert_line (readlines html))
    ++ new_questions_text js' ++ new_questions_text js
    ++ writelines (skipn insert_line (readlines html)).
Proof.
  intros Hlt. rewrite (splice_text js').
  rewrite readlines_splice by now left.
  assert (Hn : List.length (firstn insert_line (readlines html)) = insert_line)
    by (rewrite length_firstn; lia).
  revert Hn. generalize (firstn insert_line (readlines html)) as F.
  intros F Hn. rewrite firstn_app, skipn_app, Hn, Nat.sub_diag.
  replace (firstn insert_line F) with F
    by (rewrite <- Hn; symmetry; apply firstn_all).
  replace (skipn insert_line F) with (@nil string)
    by (rewrite <- Hn; symmetry; apply skipn_all).
  cbn [firstn skipn app]. rewrite app_nil_r, writelines_app.
  now rewrite writelines_readlines.
Qed.

(** X15. The script keeps no mark of what it has inserted: a second run on
    the files the first one left finds the same array, completes again and
    puts the same block in front of the first one. *)
Theorem second_run_inserts_the_block_again
        (py_eval : string -> string + pyobj) (d : files) :
  fst (run py_eval d) = Completed ->
  insert_line < List.length (readlines (dest_text d)) ->
  let d1 := disk (snd (run py_eval d)) in
  let d2 := disk (snd (run py_eval d1)) in
  exists a block b,
    dest_text d = a ++ b
    /\ dest_text d1 = a ++ block ++ b
    /\ fst (run py_eval d1) = Completed
    /\ dest_text d2 = a ++ block ++ block ++ b
    /\ terminated block = true /\ block <> "".
Proof.
  intros Hc Hlt d1 d2.
  destruct (extract (source_text d)) as [body|] eqn:Hx;
    [|rewrite (run_not_found py_eval d Hx) in Hc; discriminate].
  pose proof (run_found py_eval d body Hx) as R. cbv zeta in R.
  destruct (js_questions (parsed py_eval (re_split (Text.strip body))))
    as [e|js] eqn:Hjs; [rewrite R in Hc; discriminate|].
  assert (E1 : d1 = mk_files (source_text d) (splice js (dest_text d)))
    by (unfold d1; now rewrite R).
  assert (Hx1 : extract (source_text d1) = Some body) by now rewrite E1.
  pose proof (run_found py_eval d1 body Hx1) as R1. cbv zeta in R1.
  rewrite Hjs in R1.
  exists (writelines (firstn insert_line (readlines (dest_text d)))),
         (new_questions_text js),
         (writelines (skipn insert_line (readlines (dest_text d)))).
  split; [now rewrite <- writelines_app, firstn_skipn, writelines_readlines|].
  split; [rewrite E1; apply splice_text|].
  split; [now rewrite R1|].
  split.
  - unfold d2. rewrite R1. cbn [snd disk dest_text]. rewrite E1.
    cbn [dest_text]. now apply splice_twice.
  - split; [apply new_questions_text_terminated|].
    unfold new_questions_text. now destruct (Text.join _ js).
Qed.

(** X9. When no fragment evaluates, the run still completes: it reports
    zero added questions and has put one line that holds a lone comma into
    the destination. *)
Theorem no_parsed_record_still_inserts_a_comma_line
        (py_eval : string -> string + pyobj) (d : files) (body : string) :
  extract (source_text d) = Some body ->
  parsed py_eval (re_split (Text.strip body)) = [] ->
  let w := snd (run py_eval d) in
  fst (run py_eval d) = Completed
  /\ (exists a b,
         dest_text d = a ++ b
         /\ dest_text (disk w) = a ++ ("," ++ String Text.LF "") ++ b)
  /\ In (Print "Successfully added 0 questions from Test #5 to awsprepai-multicert.html")
        (trace w)
  /\ In (Print "New total SAA questions: 422") (trace w).
Proof.
  intros Hx Hp w. unfold w.
  pose proof (run_found py_eval d body Hx) as R. cbv zeta in R.
  rewrite Hp in R. cbn [js_questions] in R. rewrite R. cbn [fst snd disk trace].
  split; [reflexivity|]. split.
  - exists (writelines (firstn insert_line (readlines (dest_text d)))),
           (writelines (skipn insert_line (readlines (dest_text d)))).
    split; [now rewrite <- writelines_app, firstn_skipn, writelines_readlines|].
    cbn [dest_text]. apply splice_text.
  - split; apply in_or_app; right; cbn; tauto.
Qed.

(** X17. An array with nothing but white space between its brackets is not
    an empty sequence of records: the one empty fragment is repaired to a pair
    of braces, which denotes a dictionary without a field, and the run ends
    with the exception of the first field looked up. *)
Theorem blank_array_is_a_record_without_fields
        (py_eval : string -> string + pyobj) (d : files) (body : string) :
  extract (source_text d) = Some body ->
  Text.all Text.is_space body = true ->
  py_eval "{}" = inr (PDict []) ->
  run py_eval d
  = (Uncaught (KeyError "answer"),
     mk_world d [OpenRead add_questions_py;
                 Print "Parsed 1 questions from Test #5"]).
Proof.
  intros Hx Hb He.
  pose proof (run_found py_eval d body Hx) as R. cbv zeta in R.
  assert (Hs : Text.strip body = "").
  { unfold Text.strip. now rewrite rstrip_spaces. }
  unfold parse_trace in R. rewrite Hs in R.
  change (re_split "") with [""] in R.
  unfold parsed in R. cbn [flat_map parse_log] in R.
  change (repair "") with "{}" in R. rewrite He in R.
  exact R.
Qed.

Lemma second_run_inserts_the_block_again_witness :
  let d := mk_files Scenario.one_record (Scenario.page 776) in
  fst (run Literal.literal_eval d) = Completed
  /\ insert_line < List.length (readlines (dest_text d))
  /\ exists a block b,
      dest_text d = a ++ b
      /\ dest_text (disk (snd (run Literal.literal_eval d))) = a ++ block ++ b
      /\ fst (run Literal.literal_eval (disk (snd (run Literal.literal_eval d))))
         = Completed
      /\ dest_text
           (disk (snd (run Literal.literal_eval
                           (disk (snd (run Literal.literal_eval d))))))
         = a ++ block ++ block ++ b
      /\ terminated block = true /\ block <> "".
Proof.
  intros d.
  assert (H1 : fst (run Literal.literal_eval d) = Completed)
    by (vm_compute; reflexivity).
  assert (H2 : insert_line < List.length (readlines (dest_text d)))
    by (apply Nat.ltb_lt; vm_compute; reflexivity).
  split; [exact H1|]. split; [exact H2|].
  exact (second_run_inserts_the_block_again Literal.literal_eval d H1 H2).
Defined.

Lemma no_parsed_record_still_inserts_a_comma_line_witness :
  let source := "test5_questions = [
    to be written
]
" in
  let d := mk_files source (Scenario.page 2) in
  fst (run Literal.literal_eval d) = Completed
  /\ dest_text (disk (snd (run Literal.literal_eval d)))
     = Scenario.page 2 ++ "," ++ String Text.LF "".
Proof.
  intros source d.
  destruct (no_parsed_record_still_inserts_a_comma_line Literal.literal_eval d
              (String Text.LF "    to be written"))
    as (Hc & _ & _).
  - vm_compute. reflexivity.
  - vm_compute. reflexivity.
  - split; [exact Hc|]. vm_compute. reflexivity.
Defined.

Lemma blank_array_is_a_record_without_fields_witness :
  let source := "test5_questions = [

]
" in
  run Literal.literal_eval (mk_files source (Scenario.page 2))
  = (Uncaught (KeyError "answer"),
     mk_world (mk_files source (Scenario.page 2))
              [OpenRead add_questions_py;
               Print "Parsed 1 questions from Test #5"]).
Proof.
  intros source.
  apply (blank_array_is_a_record_without_fields Literal.literal_eval
           (mk_files source (Scenario.page 2)) (String Text.LF "")).
  - vm_compute. reflexivity.
  - vm_compute. reflexivity.
  - vm_compute. reflexivity.
Defined.

(** ** Quote escaping *)

Lemma esc_head (s : string) :
  match esc s with
  | String c _ => c <> Text.quote
  | EmptyString => True
  end.
Proof.
  destruct s as [|c s]; [exact I|]. unfold esc. cbn [Text.replace].
  destruct (Ascii.eqb_spec c Text.quote) as [->|Hc]; [discriminate | exact Hc].
Qed.

(** X13. The escaping loses nothing: two texts with the same escaped form
    are the same text. *)
Theorem escaping_is_injective (a b : string) : esc a = esc b -> a = b.
Proof.
  revert b. induction a as [|c a IH]; intros [|c' b].
  - reflexivity.
  - unfold esc. cbn [Text.replace].
    destruct (Ascii.eqb c' Text.quote); discriminate.
  - unfold esc. cbn [Text.replace].
    destruct (Ascii.eqb c Text.quote); discriminate.
  - pose proof (esc_head a) as Ha. pose proof (esc_head b) as Hb.
    unfold esc in *. cbn [Text.replace].
    destruct (Ascii.eqb_spec c Text.quote) as [->|Hc];
      destruct (Ascii.eqb_spec c' Text.quote) as [->|Hc'].
    + intros [= H]. f_equal. now apply IH.
    + intros [= <- H]. rewrite <- H in Hb. now destruct Hb.
    + intros [= -> H]. rewrite H in Ha. now destruct Ha.
    + intros [= <- H]. f_equal. now apply IH.
Qed.

Lemma escaping_is_injective_witness :
  let a := "say " ++ dq ++ "hi" ++ dq in
  let b := String "s" ("ay " ++ dq ++ "hi" ++ dq) in
  esc a = esc b /\ a = b.
Proof.
  intros a b. split; [reflexivity|].
  apply (escaping_is_injective a b). reflexivity.
Defined.

(** ** A comma behind the last record *)

Section TrailingComma.

Import Text.

Lemma boundary_tail_comma (t : string) :
  forall b, boundary_tail b t = None -> boundary_tail b (t ++ ",") = None.
Proof.
  induction t as [|c t IH]; intros b H; [reflexivity|].
  cbn [append boundary_tail] in *. destruct (is_space c); [now apply IH|].
  destruct (Ascii.eqb c lbrace && b); [discriminate | reflexivity].
Qed.

Lemma match_boundary_comma (s : string) :
  match_boundary s = None -> match_boundary (s ++ ",") = None.
Proof.
  destruct s as [|a [|b s]]; intros H.
  - reflexivity.
  - cbn [append match_boundary]. now destruct (Ascii.eqb a rbrace && _).
  - cbn [append match_boundary] in *.
    destruct (Ascii.eqb a rbrace && Ascii.eqb b ","); [|reflexivity].
    now apply boundary_tail_comma.
Qed.

Lemma split_from_comma (fuel : nat) :
  forall s piece,
    String.length s < fuel ->
    exists init p,
      split_from fuel piece s = (init ++ [p])%list
      /\ split_from (S fuel) piece (s ++ ",") = (init ++ [(p ++ ",")%string])%list.
Proof.
  induction fuel as [|fuel IH]; intros s piece Hf; [lia|].
  cbn [split_from]. destruct (match_boundary s) as [rest|] eqn:E.
  - rewrite (match_boundary_extend _ "," _ E).
    destruct (IH rest "") as (init & p & H1 & H2).
    { apply match_boundary_shorter in E. lia. }
    exists (piece :: init), p. cbn [split_from] in H2. now rewrite H1, H2.
  - rewrite (match_boundary_comma _ E). destruct s as [|c s].
    + exists [], piece. split; reflexivity.
    + cbn [append]. cbn [String.length] in Hf.
      destruct (IH s (piece ++ String c "")) as (init & p & H1 & H2); [lia|].
      exists init, p. cbn [split_from] in H2. now rewrite H1, H2.
Qed.

Lemma repair_comma (p : string) :
  repair (p ++ ",")
  = (if startswith "{" (lstrip p) then "" else "{") ++ lstrip p ++ ",}".
Proof.
  assert (Hs : strip (p ++ ",") = lstrip p ++ ",").
  { unfold strip. rewrite (rstrip_fixed ","); [|reflexivity|apply endswith_char_app].
    now apply lstrip_append. }
  rewrite repair_unfold, Hs.
  rewrite (endswith_append "}") by discriminate.
  change (endswith "}" ",") with false. cbv iota.
  rewrite append_assoc. f_equal.
  destruct (lstrip p) as [|c t]; [reflexivity|].
  cbn [append]. now rewrite !startswith_char.
Qed.

End TrailingComma.

(** X16. A comma behind the last record is no separator: it stays in the
    last fragment, no other fragment changes, and the repair closes the
    fragment behind the comma, so that the text handed to [eval] ends with a
    comma and a brace. *)
Theorem trailing_comma_stays_in_the_last_fragment (s : string) :
  exists init p,
    re_split s = (init ++ [p])%list
    /\ re_split (s ++ ",") = (init ++ [(p ++ ",")%string])%list
    /\ repair (p ++ ",")
       = (if Text.startswith "{" (Text.lstrip p) then "" else "{")
           ++ Text.lstrip p ++ ",}".
Proof.
  destruct (split_from_comma (S (String.length s)) s "") as (init & p & H1 & H2);
    [lia|].
  exists init, p. split; [exact H1|]. split; [|apply repair_comma].
  unfold re_split. rewrite length_append. cbn [String.length].
  now rewrite Nat.add_1_r.
Qed.

(** ** The serialised options *)

Section Printable.

Import Text.

Lemma all_weaken (p q : ascii -> bool) (s : string) :
  (forall c, p c = true -> q c = true) -> all p s = true -> all q s = true.
Proof.
  intros Hpq. induction s as [|c s IH]; [reflexivity|]. cbn [all].
  intros H. apply andb_true_iff in H as [Hc Hs]. now rewrite (Hpq c Hc), IH.
Qed.

Lemma numeral_char_printable (c : ascii) :
  numeral_char c = true -> is_printable c = true.
Proof.
  destruct c as [[] [] [] [] [] [] [] []]; intros H;
    solve [reflexivity | discriminate H].
Qed.

Lemma escape_char_printable (c : ascii) :
  all is_printable (Json.escape_char c) = true.
Proof. destruct c as [[] [] [] [] [] [] [] []]; reflexivity. Qed.

Lemma escape_printable (s : string) : all is_printable (Json.escape s) = true.
Proof.
  induction s as [|c s IH]; [reflexivity|].
  cbn [Json.escape]. now rewrite all_append, escape_char_printable, IH.
Qed.

Lemma join_printable (sep : string) (parts : list string) :
  all is_printable sep = true ->
  Forall (fun part => all is_printable part = true) parts ->
  all is_printable (join sep parts) = true.
Proof.
  intros Hsep. induction 1 as [|x xs Hx Hxs IH]; [reflexivity|].
  unfold join in *. cbn [String.concat]. destruct xs as [|y xs]; [exact Hx|].
  now rewrite !all_append, Hx, Hsep, IH.
Qed.

End Printable.

(** X18. Whatever the options hold, their serialisation is made of
    printable ASCII characters only: [json.dumps] escapes quotes, backslashes,
    control characters and the characters beyond ASCII, which the three text
    fields keep as they are. *)
Theorem serialised_value_is_printable_ascii (v : pyval) :
  Text.all is_printable (Json.dumps v) = true.
Proof.
  induction v as [| [] | z | s | items IH] using pyval_ind;
    try reflexivity.
  - apply (all_weaken Text.numeral_char); [apply numeral_char_printable|].
    apply str_int_numeral.
  - cbn [Json.dumps Json.encode_string Text.all].
    rewrite all_append, escape_printable. reflexivity.
  - cbn [Json.dumps]. rewrite !all_append, join_printable; try reflexivity.
    now apply Forall_map.
Qed.
